(** * CFG-LLMv2 chat widget: a shallow embedding of [static/js/script.js]

    The script is a single [DOMContentLoaded] closure over a handful of DOM
    nodes and three module-local variables.  It is embedded here as pure
    functions over an explicit [State] record holding those variables and
    the DOM properties the script reads or writes.  JavaScript strings are
    sequences of UTF-16 code units, JavaScript numbers are IEEE 754 binary64
    values ([spec_float] at precision 53), and the two [fetch] calls are
    split at their [await] into the part that runs at once and the part that
    runs when the response arrives. *)

From Stdlib Require Import String Ascii.
From Stdlib Require Import Bool ZArith NArith Lia List.
From Stdlib Require Import SpecFloat PrimFloat FloatOps.
From Stdlib Require Import DecimalPos.
Import ListNotations.

Set Warnings "-inexact-float".
Local Open Scope list_scope.

(** ** JavaScript strings *)

Definition code_unit := N.
Definition jsstring := list code_unit.

(** Source literals are written as Rocq strings (UTF-8 bytes) and decoded
    to code units; every literal of the script lies in the Basic
    Multilingual Plane, so sequences of one to three bytes suffice. *)
Fixpoint utf16 (s : string) : jsstring :=
  match s with
  | EmptyString => []
  | String a s1 =>
    let b1 := N_of_ascii a in
    if (b1 <? 128)%N then b1 :: utf16 s1
    else
      match s1 with
      | EmptyString => [b1]
      | String a2 s2 =>
        let b2 := N_of_ascii a2 in
        if (b1 <? 224)%N then ((b1 - 192) * 64 + (b2 - 128))%N :: utf16 s2
        else
          match s2 with
          | EmptyString => [b1; b2]
          | String a3 s3 =>
            ((b1 - 224) * 4096 + (b2 - 128) * 64 + (N_of_ascii a3 - 128))%N
              :: utf16 s3
          end
      end
  end.

(** The double quote and the line feed, which the literals below splice in. *)
Definition quot : jsstring := [34%N].
Definition LF : code_unit := 10%N.

Definition jsstring_eqb (s t : jsstring) : bool :=
  if list_eq_dec N.eq_dec s t then true else false.

(** ECMAScript WhiteSpace and LineTerminator code points, the set that
    [String.prototype.trim] strips. *)
Definition is_white_space (c : code_unit) : bool :=
  existsb (N.eqb c)
    [9; 10; 11; 12; 13; 32; 160; 5760; 8232; 8233; 8239; 8287; 12288; 65279]%N
  || ((8192 <=? c) && (c <=? 8202))%N.

Fixpoint trimStart (s : jsstring) : jsstring :=
  match s with
  | c :: s' => if is_white_space c then trimStart s' else s
  | [] => []
  end.

Definition trimEnd (s : jsstring) : jsstring := rev (trimStart (rev s)).

Definition trim (s : jsstring) : jsstring := trimEnd (trimStart s).

(** [s.startsWith(p)] *)
Fixpoint startsWith (s p : jsstring) {struct p} : bool :=
  match p, s with
  | [], _ => true
  | _ :: _, [] => false
  | a :: p', b :: s' => N.eqb a b && startsWith s' p'
  end.

(** [s.includes(p)] *)
Fixpoint includes (s p : jsstring) : bool :=
  startsWith s p ||
  match s with
  | [] => false
  | _ :: s' => includes s' p
  end.

(** [s.split('\n')]: always at least one piece. *)
Fixpoint split_LF (s : jsstring) : list jsstring :=
  match s with
  | [] => [[]]
  | c :: s' =>
    if N.eqb c LF then [] :: split_LF s'
    else
      match split_LF s' with
      | l :: ls => (c :: l) :: ls
      | [] => [[c]]
      end
  end.

(** [pieces.join('\n')], the inverse used to state properties of lines. *)
Fixpoint join_LF (ls : list jsstring) : jsstring :=
  match ls with
  | [] => []
  | [l] => l
  | l :: ls' => l ++ LF :: join_LF ls'
  end.

(** ** JavaScript numbers *)

Definition number := spec_float.

Definition prec : Z := 53.
Definition emax : Z := 1024.

Definition num_add : number -> number -> number := SFadd prec emax.
Definition num_sub : number -> number -> number := SFsub prec emax.
Definition num_mul : number -> number -> number := SFmul prec emax.
Definition num_lt : number -> number -> bool := SFltb.
Definition num_le : number -> number -> bool := SFleb.
Definition num_gt (x y : number) : bool := SFltb y x.
Definition num_ge (x y : number) : bool := SFleb y x.

Definition num_eq_dec (x y : number) : {x = y} + {x <> y}.
Proof.
  decide equality; auto using Bool.bool_dec, Pos.eq_dec, Z.eq_dec.
Defined.

Definition num_eqb (x y : number) : bool :=
  if num_eq_dec x y then true else false.

(** An integer as a number (exact below 2^53). *)
Definition number_of_Z (n : Z) : number := binary_normalize prec emax n 0 false.

(** [Math.min] and [Math.max]: NaN is contagious and -0 is below +0. *)
Definition Math_min (x y : number) : number :=
  match x, y with
  | S754_nan, _ | _, S754_nan => S754_nan
  | _, _ =>
    match SFcompare x y with
    | Some Lt => x
    | Some Gt => y
    | _ => match x with S754_zero true => x | _ => y end
    end
  end.

Definition Math_max (x y : number) : number :=
  match x, y with
  | S754_nan, _ | _, S754_nan => S754_nan
  | _, _ =>
    match SFcompare x y with
    | Some Gt => x
    | Some Lt => y
    | _ => match x with S754_zero false => x | _ => y end
    end
  end.

(** ToBoolean on a number: 0, -0 and NaN are falsy. *)
Definition num_truthy (x : number) : bool :=
  match x with
  | S754_zero _ | S754_nan => false
  | _ => true
  end.

(** The result of [Math.round]: the integer floor(x + 1/2), computed
    exactly, or the non-finite input itself. *)
Inductive rounded :=
| RNaN
| RInfinity (negative : bool)
| RInt (n : Z).

Definition Math_round (x : number) : rounded :=
  match x with
  | S754_nan => RNaN
  | S754_infinity s => RInfinity s
  | S754_zero _ => RInt 0
  | S754_finite s m e =>
    let sm := cond_Zopp s (Zpos m) in
    match e with
    | Zneg k => RInt ((2 * sm + 2 ^ Zpos k) / 2 ^ (Zpos k + 1))
    | _ => RInt (sm * 2 ^ e)
    end
  end.

(** Decimal numerals. *)
Fixpoint digits_of_uint (d : Decimal.uint) : jsstring :=
  match d with
  | Decimal.Nil => []
  | Decimal.D0 d => 48%N :: digits_of_uint d
  | Decimal.D1 d => 49%N :: digits_of_uint d
  | Decimal.D2 d => 50%N :: digits_of_uint d
  | Decimal.D3 d => 51%N :: digits_of_uint d
  | Decimal.D4 d => 52%N :: digits_of_uint d
  | Decimal.D5 d => 53%N :: digits_of_uint d
  | Decimal.D6 d => 54%N :: digits_of_uint d
  | Decimal.D7 d => 55%N :: digits_of_uint d
  | Decimal.D8 d => 56%N :: digits_of_uint d
  | Decimal.D9 d => 57%N :: digits_of_uint d
  end.

(** ToString on an integer-valued number.  JavaScript prints the plain
    decimal numeral for magnitudes below 10^21 and switches to exponent
    notation above; the numeral is what is modelled, and
    [zoom_percent_small] shows the zoom display stays far below the
    switch. *)
Definition Z_toString (n : Z) : jsstring :=
  match n with
  | Z0 => utf16 "0"
  | Zpos p => digits_of_uint (Pos.to_uint p)
  | Zneg p => utf16 "-" ++ digits_of_uint (Pos.to_uint p)
  end.

Definition rounded_toString (r : rounded) : jsstring :=
  match r with
  | RNaN => utf16 "NaN"
  | RInfinity false => utf16 "Infinity"
  | RInfinity true => utf16 "-Infinity"
  | RInt n => Z_toString n
  end.

(** Numeric literals of the script. *)
Definition num_1 : number := Eval vm_compute in Prim2SF 1%float.
Definition num_100 : number := Eval vm_compute in Prim2SF 100%float.
Definition zoomStep : number := Eval vm_compute in Prim2SF 0.1%float.
Definition minZoom : number := Eval vm_compute in Prim2SF 0.5%float.
Definition maxZoom : number := Eval vm_compute in Prim2SF 3%float.
Definition num_0 : number := S754_zero false.

(** ** Message formatting ([formatMessage], script.js 22-33) *)

Definition div_bullet (line : jsstring) : jsstring :=
  utf16 "<div class=" ++ quot ++ utf16 "bullet-point" ++ quot ++ utf16 ">"
    ++ line ++ utf16 "</div>".

Definition div_sub_bullet (line : jsstring) : jsstring :=
  utf16 "<div class=" ++ quot ++ utf16 "sub-bullet" ++ quot ++ utf16 ">"
    ++ line ++ utf16 "</div>".

Definition div_plain (line : jsstring) : jsstring :=
  utf16 "<div>" ++ line ++ utf16 "</div>".

(** The arrow function mapped over the lines. *)
Definition formatLine (line : jsstring) : jsstring :=
  let line := trim line in
  if startsWith line (utf16 "•") then div_bullet line
  else if startsWith line (utf16 "-") then div_sub_bullet line
  else div_plain line.

Definition formatMessage (content : jsstring) : jsstring :=
  concat (map formatLine (split_LF content)).

(** ** The page state

    A chat message is a [div] whose class is [message <type>] and whose
    content was written either through [innerHTML] (parsed as markup) or
    through [textContent] (kept as text). *)

Inductive NodeContent :=
| InnerHTML (markup : jsstring)
| TextContent (text : jsstring).

Record MessageDiv := mkMessageDiv {
  className : jsstring;
  content : NodeContent
}.

Record MetricsDisplay := mkMetricsDisplay {
  nodesMetric : jsstring;
  edgesMetric : jsstring;
  cyclomaticMetric : jsstring
}.

(** The multipart form posted to [/generate]. *)
Record GenerateRequest := mkGenerateRequest {
  user_input : jsstring;
  is_repair : bool
}.

(** The closure variables of the script, the DOM properties it touches and
    the calls suspended on a [fetch]. *)
Record State := mkState {
  (** [let isRepairMode] *)
  isRepairMode : bool;
  (** [let currentZoom] *)
  currentZoom : number;
  (** children of [chatMessages], oldest first *)
  chatMessages : list MessageDiv;
  (** [userInput.value] *)
  userInput_value : jsstring;
  (** [userInput.placeholder] *)
  userInput_placeholder : jsstring;
  (** [userInput] holds the focus *)
  userInput_focused : bool;
  (** [sendBtn.disabled] *)
  sendBtn_disabled : bool;
  (** [sendBtn.innerHTML] *)
  sendBtn_innerHTML : jsstring;
  (** [repairBtn.classList] has [active] *)
  repairBtn_active : bool;
  (** [loadingOverlay.classList] has [hidden] *)
  loadingOverlay_hidden : bool;
  (** markup last written into [graphContent] *)
  graphContent_innerHTML : jsstring;
  (** [Some z]: the image carries [scale(z)] *)
  image_transform : option number;
  (** [zoomLevel.textContent] *)
  zoomLevel_textContent : jsstring;
  (** [zoomIn.disabled] *)
  zoomIn_disabled : bool;
  (** [zoomOut.disabled] *)
  zoomOut_disabled : bool;
  (** the three metric cells *)
  metricsDisplay : MetricsDisplay;
  (** requests of the [generateGraph] calls suspended at [await] *)
  inflight_generate : list GenerateRequest;
  (** [clearChat] calls suspended at [await] *)
  inflight_clear : nat
}.

(** Field updates. *)
Definition set_isRepairMode (v : bool) (s : State) : State :=
  match s with
  | mkState _ x1 x2 x3 x4 x5 x6 x7 x8 x9 x10 x11 x12 x13 x14 x15 x16 x17 =>
    mkState v x1 x2 x3 x4 x5 x6 x7 x8 x9 x10 x11 x12 x13 x14 x15 x16 x17
  end.

Definition set_currentZoom (v : number) (s : State) : State :=
  match s with
  | mkState x0 _ x2 x3 x4 x5 x6 x7 x8 x9 x10 x11 x12 x13 x14 x15 x16 x17 =>
    mkState x0 v x2 x3 x4 x5 x6 x7 x8 x9 x10 x11 x12 x13 x14 x15 x16 x17
  end.

Definition set_chatMessages (v : list MessageDiv) (s : State) : State :=
  match s with
  | mkState x0 x1 _ x3 x4 x5 x6 x7 x8 x9 x10 x11 x12 x13 x14 x15 x16 x17 =>
    mkState x0 x1 v x3 x4 x5 x6 x7 x8 x9 x10 x11 x12 x13 x14 x15 x16 x17
  end.

Definition set_userInput_value (v : jsstring) (s : State) : State :=
  match s with
  | mkState x0 x1 x2 _ x4 x5 x6 x7 x8 x9 x10 x11 x12 x13 x14 x15 x16 x17 =>
    mkState x0 x1 x2 v x4 x5 x6 x7 x8 x9 x10 x11 x12 x13 x14 x15 x16 x17
  end.

Definition set_userInput_placeholder (v : jsstring) (s : State) : State :=
  match s with
  | mkState x0 x1 x2 x3 _ x5 x6 x7 x8 x9 x10 x11 x12 x13 x14 x15 x16 x17 =>
    mkState x0 x1 x2 x3 v x5 x6 x7 x8 x9 x10 x11 x12 x13 x14 x15 x16 x17
  end.

Definition set_userInput_focused (v : bool) (s : State) : State :=
  match s with
  | mkState x0 x1 x2 x3 x4 _ x6 x7 x8 x9 x10 x11 x12 x13 x14 x15 x16 x17 =>
    mkState x0 x1 x2 x3 x4 v x6 x7 x8 x9 x10 x11 x12 x13 x14 x15 x16 x17
  end.

Definition set_sendBtn_disabled (v : bool) (s : State) : State :=
  match s with
  | mkState x0 x1 x2 x3 x4 x5 _ x7 x8 x9 x10 x11 x12 x13 x14 x15 x16 x17 =>
    mkState x0 x1 x2 x3 x4 x5 v x7 x8 x9 x10 x11 x12 x13 x14 x15 x16 x17
  end.

Definition set_sendBtn_innerHTML (v : jsstring) (s : State) : State :=
  match s with
  | mkState x0 x1 x2 x3 x4 x5 x6 _ x8 x9 x10 x11 x12 x13 x14 x15 x16 x17 =>
    mkState x0 x1 x2 x3 x4 x5 x6 v x8 x9 x10 x11 x12 x13 x14 x15 x16 x17
  end.

Definition set_repairBtn_active (v : bool) (s : State) : State :=
  match s with
  | mkState x0 x1 x2 x3 x4 x5 x6 x7 _ x9 x10 x11 x12 x13 x14 x15 x16 x17 =>
    mkState x0 x1 x2 x3 x4 x5 x6 x7 v x9 x10 x11 x12 x13 x14 x15 x16 x17
  end.

Definition set_loadingOverlay_hidden (v : bool) (s : State) : State :=
  match s with
  | mkState x0 x1 x2 x3 x4 x5 x6 x7 x8 _ x10 x11 x12 x13 x14 x15 x16 x17 =>
    mkState x0 x1 x2 x3 x4 x5 x6 x7 x8 v x10 x11 x12 x13 x14 x15 x16 x17
  end.

Definition set_graphContent_innerHTML (v : jsstring) (s : State) : State :=
  match s with
  | mkState x0 x1 x2 x3 x4 x5 x6 x7 x8 x9 _ x11 x12 x13 x14 x15 x16 x17 =>
    mkState x0 x1 x2 x3 x4 x5 x6 x7 x8 x9 v x11 x12 x13 x14 x15 x16 x17
  end.

Definition set_image_transform (v : option number) (s : State) : State :=
  match s with
  | mkState x0 x1 x2 x3 x4 x5 x6 x7 x8 x9 x10 _ x12 x13 x14 x15 x16 x17 =>
    mkState x0 x1 x2 x3 x4 x5 x6 x7 x8 x9 x10 v x12 x13 x14 x15 x16 x17
  end.

Definition set_zoomLevel_textContent (v : jsstring) (s : State) : State :=
  match s with
  | mkState x0 x1 x2 x3 x4 x5 x6 x7 x8 x9 x10 x11 _ x13 x14 x15 x16 x17 =>
    mkState x0 x1 x2 x3 x4 x5 x6 x7 x8 x9 x10 x11 v x13 x14 x15 x16 x17
  end.

Definition set_zoomIn_disabled (v : bool) (s : State) : State :=
  match s with
  | mkState x0 x1 x2 x3 x4 x5 x6 x7 x8 x9 x10 x11 x12 _ x14 x15 x16 x17 =>
    mkState x0 x1 x2 x3 x4 x5 x6 x7 x8 x9 x10 x11 x12 v x14 x15 x16 x17
  end.

Definition set_zoomOut_disabled (v : bool) (s : State) : State :=
  match s with
  | mkState x0 x1 x2 x3 x4 x5 x6 x7 x8 x9 x10 x11 x12 x13 _ x15 x16 x17 =>
    mkState x0 x1 x2 x3 x4 x5 x6 x7 x8 x9 x10 x11 x12 x13 v x15 x16 x17
  end.

Definition set_metricsDisplay (v : MetricsDisplay) (s : State) : State :=
  match s with
  | mkState x0 x1 x2 x3 x4 x5 x6 x7 x8 x9 x10 x11 x12 x13 x14 _ x16 x17 =>
    mkState x0 x1 x2 x3 x4 x5 x6 x7 x8 x9 x10 x11 x12 x13 x14 v x16 x17
  end.

Definition set_inflight_generate (v : list GenerateRequest) (s : State) : State :=
  match s with
  | mkState x0 x1 x2 x3 x4 x5 x6 x7 x8 x9 x10 x11 x12 x13 x14 x15 _ x17 =>
    mkState x0 x1 x2 x3 x4 x5 x6 x7 x8 x9 x10 x11 x12 x13 x14 x15 v x17
  end.

Definition set_inflight_clear (v : nat) (s : State) : State :=
  match s with
  | mkState x0 x1 x2 x3 x4 x5 x6 x7 x8 x9 x10 x11 x12 x13 x14 x15 x16 _ =>
    mkState x0 x1 x2 x3 x4 x5 x6 x7 x8 x9 x10 x11 x12 x13 x14 x15 x16 v
  end.

(** ** Server responses

    A [fetch] followed by [response.json()] either yields the decoded
    payload or rejects (network failure, body that is not JSON) with an
    error carrying a message.  Payloads are typed as the server interface
    gives them; an absent field is [None]. *)

Inductive Fetched (A : Type) :=
| Resolved (data : A)
| Rejected (message : jsstring).
Arguments Resolved {A} data.
Arguments Rejected {A} message.

Record ChatEntry := mkChatEntry {
  entry_type : jsstring;
  entry_content : jsstring
}.

Record Metrics := mkMetrics {
  nodes : Z;
  edges : Z;
  cyclomatic : Z
}.

Record GenerateData := mkGenerateData {
  error : option jsstring;
  chat_history : option (list ChatEntry);
  cfg_image : option jsstring;
  metrics : option Metrics
}.

Record ClearData := mkClearData {
  status : jsstring
}.

(** ** Events *)

Record KeyboardEvent := mkKeyboardEvent {
  key_ctrlKey : bool;
  key_metaKey : bool;
  key_shiftKey : bool;
  key : jsstring
}.

(** [wheelDelta] is absent in some browsers; an absent value behaves as
    NaN does in both the [||] chain and the comparisons. *)
Record WheelEvent := mkWheelEvent {
  wheel_ctrlKey : bool;
  wheel_metaKey : bool;
  deltaY : number;
  detail : number;
  wheelDelta : number
}.

(** What the page's HTML fixes before the script runs; the markup is not
    part of the script. *)
Record Page := mkPage {
  html_chatMessages : list MessageDiv;
  html_userInput_value : jsstring;
  html_userInput_placeholder : jsstring;
  html_sendBtn_disabled : bool;
  html_sendBtn_innerHTML : jsstring;
  html_repairBtn_active : bool;
  html_loadingOverlay_hidden : bool;
  html_metricsDisplay : MetricsDisplay
}.

Inductive Event :=
| Click_zoomIn
| Click_zoomOut
| Click_repairBtn
| Click_sendBtn
| Click_clearBtn
| KeyDown (in_userInput : bool) (e : KeyboardEvent)
| Wheel_graphImage (e : WheelEvent)
| Edit_userInput (text : jsstring)
| Blur_userInput
| Response_generate (i : nat) (r : Fetched GenerateData)
| Response_clear (r : Fetched ClearData).

(** ** Fixed texts *)

Definition WELCOME_MESSAGE : jsstring :=
  join_LF (map utf16
    [ "• Welcome to the Control Flow Graph Generator!";
      "";
      "• Key Features:";
      "  - Create detailed flow diagrams";
      "  - Get instant graph metrics";
      "  - Optimize process layouts";
      "  - Analyze flow complexity";
      "";
      "• How to Use:";
      "  - Type your process description";
      "  - Click Generate to create graph";
      "  - Use Refine for improvements";
      "";
      "• Try describing a simple process to start!" ]%string).

Definition placeholder_repair : jsstring :=
  utf16 "Describe how you'd like to improve the current graph...".

Definition placeholder_describe : jsstring :=
  utf16 "Describe the process or flow you want to visualize...".

Definition label_generating : jsstring :=
  utf16 "<span class=" ++ quot ++ utf16 "btn-icon" ++ quot
    ++ utf16 ">↻</span> Generating...".

Definition label_generate : jsstring :=
  utf16 "<span class=" ++ quot ++ utf16 "btn-icon" ++ quot
    ++ utf16 ">➤</span> Generate".

Definition img_markup (cfg_image : jsstring) : jsstring :=
  utf16 "<img src=" ++ quot ++ utf16 "data:image/png;base64," ++ cfg_image
    ++ quot ++ utf16 " alt=" ++ quot ++ utf16 "Control Flow Graph" ++ quot
    ++ utf16 ">".

Definition user : jsstring := utf16 "user".
Definition assistant : jsstring := utf16 "assistant".

(** ** Chat messages and metrics (script.js 131-165) *)

(** [addMessage(content, type)].  The scroll position it also sets depends
    on layout and is not part of the state. *)
Definition addMessage (content type : jsstring) (s : State) : State :=
  let messageDiv_className := utf16 "message " ++ type in
  let messageDiv :=
    if jsstring_eqb type assistant
    then mkMessageDiv messageDiv_className (InnerHTML (formatMessage content))
    else mkMessageDiv messageDiv_className (TextContent content) in
  set_chatMessages (chatMessages s ++ [messageDiv]) s.

(** [updateMetrics(data)], on [data.metrics]. *)
Definition updateMetrics (data_metrics : option Metrics) (s : State) : State :=
  match data_metrics with
  | Some m =>
    set_metricsDisplay
      (mkMetricsDisplay (Z_toString (nodes m)) (Z_toString (edges m))
                        (Z_toString (cyclomatic m))) s
  | None =>
    set_metricsDisplay (mkMetricsDisplay (utf16 "-") (utf16 "-") (utf16 "-")) s
  end.

(** [toggleLoading(show)]: [classList.toggle('hidden', !show)]. *)
Definition toggleLoading (show : bool) (s : State) : State :=
  set_loadingOverlay_hidden (negb show) s.

(** [initializeUI()] (script.js 14-19). *)
Definition initializeUI (s : State) : State :=
  let s := set_userInput_focused true s in
  let s := set_repairBtn_active false s in
  let s := set_isRepairMode false s in
  updateMetrics None s.

(** The repair button's click listener (script.js 273-279). *)
Definition repairBtn_onclick (s : State) : State :=
  let s := set_isRepairMode (negb (isRepairMode s)) s in
  let s := set_repairBtn_active (negb (repairBtn_active s)) s in
  set_userInput_placeholder
    (if isRepairMode s then placeholder_repair else placeholder_describe) s.

(** ** Control flow of the two asynchronous functions

    A block either completes or throws an [Error] with a message; what it
    wrote to the page before throwing stays written. *)

Inductive Completion :=
| Normal (s : State)
| Throw (message : jsstring) (s : State).

Definition Block := State -> Completion.

Definition run (f : State -> State) : Block := fun s => Normal (f s).

Definition throw_Error (message : jsstring) : Block := fun s => Throw message s.

Definition andThen (b1 b2 : Block) : Block :=
  fun s =>
    match b1 s with
    | Normal s' => b2 s'
    | Throw message s' => Throw message s'
    end.

Notation "b1 ;; b2" := (andThen b1 b2) (at level 61, right associativity).

Definition when (c : bool) (b : Block) : Block :=
  if c then b else run (fun s => s).

Definition try_catch_finally (body : Block)
    (handler : jsstring -> State -> State) (final : State -> State)
    : State -> State :=
  fun s =>
    match body s with
    | Normal s' => final s'
    | Throw message s' => final (handler message s')
    end.

Fixpoint remove_nth {A : Type} (i : nat) (l : list A) : list A :=
  match i, l with
  | _, [] => []
  | O, _ :: l' => l'
  | S i', a :: l' => a :: remove_nth i' l'
  end.

(** ** The earlier revision of the script (part_000)

    It has no zoom widget: [graphImage.innerHTML] is the native property,
    held here in [graphContent_innerHTML].  [formatMessage], [addMessage],
    [updateMetrics], [generateGraph] and the repair listener are the same
    text as in script.js. *)
Module Part000.

Definition initializeUI (s : State) : State :=
  let s := set_userInput_focused true s in
  let s := set_repairBtn_active false s in
  let s := set_isRepairMode false s in
  let s := updateMetrics None s in
  match chatMessages s with
  | [] => addMessage WELCOME_MESSAGE assistant s
  | _ :: _ => s
  end.

(** [clearChat] from the point where the response has arrived. *)
Definition clearChat_resume (r : Fetched ClearData) (s : State) : State :=
  match r with
  | Rejected _ => s
  | Resolved data =>
    if jsstring_eqb (status data) (utf16 "success") then
      let s := set_chatMessages [] s in
      let s := set_graphContent_innerHTML [] s in
      let s := set_userInput_value [] s in
      let s := updateMetrics None s in
      let s := addMessage WELCOME_MESSAGE assistant s in
      initializeUI s
    else s
  end.

End Part000.

(** ** The script proper *)

Section Script.

(** [graphContent.querySelector('img')] asks the browser whether the markup
    it parsed produced an image element.  The HTML parser is the browser's;
    it enters as a parameter, applied to the markup held by [graphContent]. *)
Variable querySelector_img : jsstring -> bool.

(** [updateZoom()] (script.js 59-69). *)
Definition updateZoom (s : State) : State :=
  if querySelector_img (graphContent_innerHTML s) then
    let s := set_image_transform (Some (currentZoom s)) s in
    let s := set_zoomLevel_textContent
               (rounded_toString (Math_round (num_mul (currentZoom s) num_100))
                  ++ utf16 "%") s in
    let s := set_zoomIn_disabled (num_ge (currentZoom s) maxZoom) s in
    set_zoomOut_disabled (num_le (currentZoom s) minZoom) s
  else s.

(** The click listeners of the two zoom buttons (script.js 71-83). *)
Definition zoomIn_onclick (s : State) : State :=
  if num_lt (currentZoom s) maxZoom then
    let s := set_currentZoom
               (Math_min (num_add (currentZoom s) zoomStep) maxZoom) s in
    updateZoom s
  else s.

Definition zoomOut_onclick (s : State) : State :=
  if num_gt (currentZoom s) minZoom then
    let s := set_currentZoom
               (Math_max (num_sub (currentZoom s) zoomStep) minZoom) s in
    updateZoom s
  else s.

(** Assigning [graphContent.innerHTML] replaces the children, so an image
    the script had scaled is gone. *)
Definition graphContent_set_innerHTML (content : jsstring) (s : State) : State :=
  set_image_transform None (set_graphContent_innerHTML content s).

(** The setter installed on [graphImage.innerHTML] (script.js 86-99). *)
Definition graphImage_set_innerHTML (content : jsstring) (s : State) : State :=
  if includes content (utf16 "<img") then
    let s := graphContent_set_innerHTML content s in
    let s := set_currentZoom num_1 s in
    updateZoom s
  else
    graphContent_set_innerHTML content s.

(** [button.click()] and a user's click alike dispatch nothing on a
    disabled button. *)
Definition click_zoomIn (s : State) : State :=
  if zoomIn_disabled s then s else zoomIn_onclick s.

Definition click_zoomOut (s : State) : State :=
  if zoomOut_disabled s then s else zoomOut_onclick s.

(** The document's keydown listener (script.js 102-112). *)
Definition document_onkeydown (e : KeyboardEvent) (s : State) : State :=
  if key_ctrlKey e || key_metaKey e then
    if jsstring_eqb (key e) (utf16 "=") || jsstring_eqb (key e) (utf16 "+")
    then click_zoomIn s
    else if jsstring_eqb (key e) (utf16 "-") then click_zoomOut s
    else s
  else s.

(** [a || b] on numbers. *)
Definition num_or (a b : number) : number := if num_truthy a then a else b.

(** The wheel listener on [graphImage] (script.js 115-128). *)
Definition graphImage_onwheel (e : WheelEvent) (s : State) : State :=
  if wheel_ctrlKey e || wheel_metaKey e then
    let delta := num_or (num_or (deltaY e) (detail e)) (wheelDelta e) in
    let s :=
      if num_lt delta num_0 && num_lt (currentZoom s) maxZoom then
        set_currentZoom (Math_min (num_add (currentZoom s) zoomStep) maxZoom) s
      else if num_gt delta num_0 && num_gt (currentZoom s) minZoom then
        set_currentZoom (Math_max (num_sub (currentZoom s) zoomStep) minZoom) s
      else s in
    updateZoom s
  else s.

(** [generateGraph()] up to its [await fetch(...)] (script.js 168-185). *)
Definition generateGraph (s : State) : State :=
  let input := trim (userInput_value s) in
  match input with
  | [] => s
  | _ :: _ =>
    let s := toggleLoading true s in
    let s := set_sendBtn_disabled true s in
    let s := set_sendBtn_innerHTML label_generating s in
    let formData := mkGenerateRequest input (isRepairMode s) in
    set_inflight_generate (inflight_generate s ++ [formData]) s
  end.

(** The rest of the [try] block, once the response is there
    (script.js 187-216). *)
Definition generateGraph_try (input : jsstring) (r : Fetched GenerateData)
    : Block :=
  match r with
  | Rejected message => throw_Error message
  | Resolved data =>
    match error data with
    | Some ((_ :: _) as e) => throw_Error e
    | _ => run (fun s => s)
    end ;;
    run (addMessage input user) ;;
    run (match chat_history data with
         | Some (m :: h) =>
           let lastMessage := last (m :: h) m in
           if jsstring_eqb (entry_type lastMessage) assistant
           then addMessage (entry_content lastMessage) assistant
           else fun s => s
         | _ => fun s => s
         end) ;;
    run (match cfg_image data with
         | Some ((_ :: _) as b) => graphImage_set_innerHTML (img_markup b)
         | _ => fun s => s
         end) ;;
    run (match metrics data with
         | Some m => updateMetrics (Some m)
         | None => fun s => s
         end) ;;
    run (set_userInput_value []) ;;
    run (set_userInput_focused true)
  end.

(** [generateGraph()] from its [await] on: [try], [catch], [finally]
    (script.js 187-225). *)
Definition generateGraph_resume (input : jsstring) (r : Fetched GenerateData)
    : State -> State :=
  try_catch_finally
    (generateGraph_try input r)
    (fun message => addMessage (utf16 "• Error: " ++ message) assistant)
    (fun s =>
       let s := toggleLoading false s in
       let s := set_sendBtn_disabled false s in
       set_sendBtn_innerHTML label_generate s).

(** [clearChat()] up to its [await fetch(...)]. *)
Definition clearChat (s : State) : State :=
  set_inflight_clear (S (inflight_clear s)) s.

(** [clearChat()] once the response is there (script.js 232-260); a
    rejection is only logged. *)
Definition clearChat_resume (r : Fetched ClearData) (s : State) : State :=
  match r with
  | Rejected _ => s
  | Resolved data =>
    if jsstring_eqb (status data) (utf16 "success") then
      let s := set_chatMessages [] s in
      let s := graphImage_set_innerHTML [] s in
      let s := set_userInput_value [] s in
      let s := updateMetrics None s in
      let s := addMessage WELCOME_MESSAGE assistant s in
      initializeUI s
    else s
  end.

(** The keydown listener on [userInput] (script.js 266-271). *)
Definition userInput_onkeydown (e : KeyboardEvent) (s : State) : State :=
  if jsstring_eqb (key e) (utf16 "Enter") && negb (key_shiftKey e)
  then generateGraph s
  else s.

(** The body of the [DOMContentLoaded] listener: the closure variables at
    their initial values, the zoom widget as created, then
    [initializeUI()]. *)
Definition DOMContentLoaded (page : Page) : State :=
  initializeUI
    {| isRepairMode := false;
       currentZoom := num_1;
       chatMessages := html_chatMessages page;
       userInput_value := html_userInput_value page;
       userInput_placeholder := html_userInput_placeholder page;
       userInput_focused := false;
       sendBtn_disabled := html_sendBtn_disabled page;
       sendBtn_innerHTML := html_sendBtn_innerHTML page;
       repairBtn_active := html_repairBtn_active page;
       loadingOverlay_hidden := html_loadingOverlay_hidden page;
       graphContent_innerHTML := [];
       image_transform := None;
       zoomLevel_textContent := utf16 "100%";
       zoomIn_disabled := false;
       zoomOut_disabled := false;
       metricsDisplay := html_metricsDisplay page;
       inflight_generate := [];
       inflight_clear := 0 |}.

(** One turn of the event loop. *)
Definition step (ev : Event) (s : State) : State :=
  match ev with
  | Click_zoomIn => click_zoomIn s
  | Click_zoomOut => click_zoomOut s
  | Click_repairBtn => repairBtn_onclick s
  | Click_sendBtn => if sendBtn_disabled s then s else generateGraph s
  | Click_clearBtn => clearChat s
  | KeyDown in_userInput e =>
    document_onkeydown e (if in_userInput then userInput_onkeydown e s else s)
  | Wheel_graphImage e => graphImage_onwheel e s
  | Edit_userInput text => set_userInput_value text s
  | Blur_userInput => set_userInput_focused false s
  | Response_generate i r =>
    match nth_error (inflight_generate s) i with
    | Some formData =>
      generateGraph_resume (user_input formData) r
        (set_inflight_generate (remove_nth i (inflight_generate s)) s)
    | None => s
    end
  | Response_clear r =>
    match inflight_clear s with
    | S n => clearChat_resume r (set_inflight_clear n s)
    | O => s
    end
  end.

Definition run_events (evs : list Event) (s : State) : State :=
  fold_left (fun s ev => step ev s) evs s.

Inductive reachable : State -> Prop :=
| reachable_load (page : Page) : reachable (DOMContentLoaded page)
| reachable_step (ev : Event) (s : State) :
    reachable s -> reachable (step ev s).

End Script.

(** ** Definitions used to state the properties *)

(** One zoom step on the zoom level alone, as the click and wheel listeners
    compute it. *)
Definition zoom_in (z : number) : number :=
  if num_lt z maxZoom then Math_min (num_add z zoomStep) maxZoom else z.

Definition zoom_out (z : number) : number :=
  if num_gt z minZoom then Math_max (num_sub z zoomStep) minZoom else z.

(** The text [updateZoom] writes for a zoom level. *)
Definition percent_text (z : number) : jsstring :=
  rounded_toString (Math_round (num_mul z num_100)) ++ utf16 "%".

Definition num_mem (z : number) (l : list number) : bool :=
  existsb (num_eqb z) l.

Definition add_new (z : number) (l : list number) : list number :=
  if num_mem z l then l else l ++ [z].

Definition grow (l : list number) : list number :=
  fold_left (fun acc z => add_new (zoom_out z) (add_new (zoom_in z) acc)) l l.

Fixpoint iterate {A : Type} (n : nat) (f : A -> A) (a : A) : A :=
  match n with
  | O => a
  | S n' => iterate n' f (f a)
  end.

(** The zoom levels that sequences of steps from 1 can produce.  Binary64
    addition of 0.1 is inexact, so these are not the multiples of 0.1:
    the set is computed by closing [1] under the two steps. *)
Definition zoom_values : list number :=
  Eval vm_compute in iterate 64 grow [num_1].

(** A wheel event scrolls down when its [deltaY] is positive and up when it
    is negative (the sign convention of the DOM wheel event). *)
Definition wheel_down (e : WheelEvent) : bool := num_gt (deltaY e) num_0.
Definition wheel_up (e : WheelEvent) : bool := num_lt (deltaY e) num_0.

(** The three kinds of element [formatMessage] produces, and the kind a
    line gets from its first character that is not white space. *)
Inductive ElementKind := BulletPoint | SubBullet | PlainLine.

Definition element (k : ElementKind) (text : jsstring) : jsstring :=
  match k with
  | BulletPoint => div_bullet text
  | SubBullet => div_sub_bullet text
  | PlainLine => div_plain text
  end.

Definition first_visible (line : jsstring) : option code_unit :=
  find (fun c => negb (is_white_space c)) line.

Definition kind_of_line (line : jsstring) : ElementKind :=
  match first_visible line with
  | Some c =>
    if N.eqb c 8226 then BulletPoint
    else if N.eqb c 45 then SubBullet
    else PlainLine
  | None => PlainLine
  end.

(** The formatter as the specification words it: the kind is decided on
    the line as split, with no trimming. *)
Definition formatLine_spec (line : jsstring) : jsstring :=
  if startsWith line (utf16 "•") then div_bullet line
  else if startsWith line (utf16 "-") then div_sub_bullet line
  else div_plain line.

Definition formatMessage_spec (content : jsstring) : jsstring :=
  concat (map formatLine_spec (split_LF content)).

(** The message nodes [addMessage] builds for the two roles. *)
Definition user_message (content : jsstring) : MessageDiv :=
  mkMessageDiv (utf16 "message user") (TextContent content).

Definition assistant_message (content : jsstring) : MessageDiv :=
  mkMessageDiv (utf16 "message assistant") (InnerHTML (formatMessage content)).

Definition no_metrics : MetricsDisplay :=
  mkMetricsDisplay (utf16 "-") (utf16 "-") (utf16 "-").

(** A stand-in for the browser's parser, to run the model on concrete
    pages: it reports an image when the markup spells an image tag, which
    is exact on the two markups the script writes. *)
Definition sniff_img (markup : jsstring) : bool :=
  includes markup (utf16 "<img").

(** A page as the widget expects it: empty transcript, empty input. *)
Definition blank_page : Page :=
  {| html_chatMessages := [];
     html_userInput_value := [];
     html_userInput_placeholder := placeholder_describe;
     html_sendBtn_disabled := false;
     html_sendBtn_innerHTML := label_generate;
     html_repairBtn_active := false;
     html_loadingOverlay_hidden := true;
     html_metricsDisplay := no_metrics |}.

(** The answer [{status: "success"}] of [/clear_session]. *)
Definition success : Fetched ClearData :=
  Resolved (mkClearData (utf16 "success")).

(** A vertical wheel event with ctrl held; [detail] is 0 on wheel events. *)
Definition ctrl_wheel (dy : number) : WheelEvent :=
  mkWheelEvent true false dy num_0 S754_nan.

(** What is checked, by evaluation, on each of the zoom levels. *)
Definition zoom_value_ok (z : number) : bool :=
  num_mem (zoom_in z) zoom_values &&
  num_mem (zoom_out z) zoom_values &&
  num_le minZoom z && num_le z maxZoom &&
  Bool.eqb (num_ge z maxZoom) (num_eqb z maxZoom) &&
  Bool.eqb (num_le z minZoom) (num_eqb z minZoom) &&
  Bool.eqb (num_lt z maxZoom) (num_lt z (zoom_in z)) &&
  Bool.eqb (num_gt z minZoom) (num_lt (zoom_out z) z) &&
  match Math_round (num_mul z num_100) with
  | RInt n => (50 <=? n)%Z && (n <=? 300)%Z
  | _ => false
  end.

(** The zoom widget shows the zoom level: the image is scaled by it, the
    label reads its percentage and each button is disabled at its bound. *)
Definition zoom_synced (s : State) : Prop :=
  image_transform s = Some (currentZoom s) /\
  zoomLevel_textContent s = percent_text (currentZoom s) /\
  zoomIn_disabled s = num_ge (currentZoom s) maxZoom /\
  zoomOut_disabled s = num_le (currentZoom s) minZoom.

(** The invariant of the zoom widget: the level is one of [zoom_values],
    and the widget shows it whenever [graphContent] holds an image. *)
Definition zoom_inv (querySelector_img : jsstring -> bool) (s : State) : Prop :=
  In (currentZoom s) zoom_values /\
  (querySelector_img (graphContent_innerHTML s) = true -> zoom_synced s).

(** Two states with the same zoom widget. *)
Definition same_viewer (s s' : State) : Prop :=
  currentZoom s' = currentZoom s /\
  graphContent_innerHTML s' = graphContent_innerHTML s /\
  image_transform s' = image_transform s /\
  zoomLevel_textContent s' = zoomLevel_textContent s /\
  zoomIn_disabled s' = zoomIn_disabled s /\
  zoomOut_disabled s' = zoomOut_disabled s.

(** A block keeps a property of the state, however it completes. *)
Definition block_keeps (I : State -> Prop) (b : Block) : Prop :=
  forall s, I s ->
    match b s with
    | Normal s' => I s'
    | Throw _ s' => I s'
    end.

(** Two states whose zoom widget looks the same, whatever the zoom level. *)
Definition same_display (s s' : State) : Prop :=
  graphContent_innerHTML s' = graphContent_innerHTML s /\
  image_transform s' = image_transform s /\
  zoomLevel_textContent s' = zoomLevel_textContent s /\
  zoomIn_disabled s' = zoomIn_disabled s /\
  zoomOut_disabled s' = zoomOut_disabled s.

(** The events that can trigger a zoom step: a click on a zoom button, a
    key press (the shortcuts), a wheel event over the viewer. *)
Definition zoom_trigger (ev : Event) : bool :=
  match ev with
  | Click_zoomIn | Click_zoomOut | KeyDown _ _ | Wheel_graphImage _ => true
  | _ => false
  end.

(** A session that renders a graph and then zooms in twenty times. *)
Definition session_zoomed_in : list Event :=
  [ Edit_userInput (utf16 "draw a loop");
    Click_sendBtn;
    Response_generate 0
      (Resolved (mkGenerateData None None (Some (utf16 "iVBORw0KGgo=")) None)) ]
  ++ repeat Click_zoomIn 20.

(** A message node the script builds: for either role, from some text. *)
Definition script_message (d : MessageDiv) : Prop :=
  (exists c, d = user_message c) \/ (exists c, d = assistant_message c).

(** Every node of the transcript came with the page or was built by the
    script. *)
Definition transcript_inv (page : Page) (s : State) : Prop :=
  Forall (fun d => In d (html_chatMessages page) \/ script_message d)
         (chatMessages s).

(** ** Definitions used to state further properties *)

(** A text with nothing but white space in it. *)
Definition blank (s : jsstring) : bool := forallb is_white_space s.

(** ToBoolean on an optional string field of a payload: absent and empty
    are falsy. *)
Definition field_truthy (v : option jsstring) : bool :=
  match v with
  | Some (_ :: _) => true
  | _ => false
  end.

(** The integer the zoom label shows for a zoom level. *)
Definition percent_of (z : number) : Z :=
  match Math_round (num_mul z num_100) with
  | RInt n => n
  | _ => 0
  end.

(** An Enter key press without modifiers. *)
Definition enter_key : KeyboardEvent :=
  mkKeyboardEvent false false false (utf16 "Enter").

(** The active class of the repair button tells the repair flag. *)
Definition repair_synced (s : State) : Prop :=
  repairBtn_active s = isRepairMode s.

(** The send button is disabled exactly while the loading indicator is
    shown, and then a [generateGraph] call is suspended on its request. *)
Definition loading_synced (s : State) : Prop :=
  sendBtn_disabled s = negb (loadingOverlay_hidden s) /\
  (sendBtn_disabled s = true -> inflight_generate s <> []).

(** The viewer holds nothing, or the image markup of a non-empty payload. *)
Definition viewer_content_ok (s : State) : Prop :=
  graphContent_innerHTML s = [] \/
  exists c b, graphContent_innerHTML s = img_markup (c :: b).



(** What is checked, by evaluation, on the label of each zoom level: it
    is a multiple of ten, it moves by ten with each step and stops at 50
    and 300, it reads 300 only at the upper bound, and 25 steps in one
    direction reach the bound. *)
Definition zoom_label_ok (z : number) : bool :=
  (percent_of z mod 10 =? 0)%Z &&
  (percent_of (zoom_in z) =? Z.min (percent_of z + 10) 300)%Z &&
  (percent_of (zoom_out z) =? Z.max (percent_of z - 10) 50)%Z &&
  Bool.eqb (percent_of z =? 300)%Z (num_eqb z maxZoom) &&
  num_eqb (iterate 25 zoom_in z) maxZoom &&
  num_eqb (iterate 25 zoom_out z) minZoom.

(** The label reads the percentage of one of the zoom levels. *)
Definition label_ok (s : State) : Prop :=
  In (currentZoom s) zoom_values /\
  exists z, In z zoom_values /\ zoomLevel_textContent s = percent_text z.

(** The zoom widget as the user sees and drives it. *)
Definition zoom_widget (s : State) : number * jsstring * bool * bool :=
  (currentZoom s, zoomLevel_textContent s, zoomIn_disabled s,
   zoomOut_disabled s).

(** * Properties *)

(** ** Strings *)

Lemma split_LF_nonempty (s : jsstring) : split_LF s <> [].
Proof.
  destruct s as [|c s]; simpl; [discriminate|].
  destruct (N.eqb c LF); [discriminate|].
  destruct (split_LF s); discriminate.
Qed.

Lemma join_split_LF (s : jsstring) : join_LF (split_LF s) = s.
Proof.
  induction s as [|c s IH]; simpl; [reflexivity|].
  destruct (N.eqb_spec c LF) as [->|Hc].
  - pose proof (split_LF_nonempty s) as Hne.
    destruct (split_LF s) as [|l ls]; [contradiction|].
    simpl in *. now rewrite IH.
  - pose proof (split_LF_nonempty s) as Hne.
    destruct (split_LF s) as [|l ls]; [contradiction|].
    destruct ls as [|l' ls]; simpl in *; now rewrite <- IH.
Qed.

Lemma split_LF_lines (s : jsstring) :
  Forall (fun l => ~ In LF l) (split_LF s).
Proof.
  induction s as [|c s IH]; simpl.
  - constructor; [intros []|constructor].
  - destruct (N.eqb_spec c LF) as [->|Hc].
    + constructor; [intros []|exact IH].
    + destruct (split_LF s) as [|l ls].
      * constructor; [|constructor]. intros [H|[]]. now apply Hc.
      * inversion IH as [|? ? Hl Hls]; subst.
        constructor; [|exact Hls].
        intros [H|H]; [now apply Hc|now apply Hl].
Qed.

Lemma split_LF_length (s : jsstring) :
  length (split_LF s) = S (count_occ N.eq_dec s LF).
Proof.
  induction s as [|c s IH]; simpl; [reflexivity|].
  destruct (N.eqb_spec c LF) as [->|Hc].
  - destruct (N.eq_dec LF LF); [|contradiction]. simpl. now rewrite IH.
  - destruct (N.eq_dec c LF); [contradiction|].
    pose proof (split_LF_nonempty s) as Hne.
    destruct (split_LF s) as [|l ls]; [contradiction|]. exact IH.
Qed.

Lemma trimStart_snoc (a : jsstring) (c : code_unit) :
  is_white_space c = false -> trimStart (a ++ [c]) = trimStart a ++ [c].
Proof.
  intros Hc. induction a as [|x a IH]; simpl.
  - now rewrite Hc.
  - destruct (is_white_space x); [exact IH|reflexivity].
Qed.

Lemma trimEnd_cons (c : code_unit) (t : jsstring) :
  is_white_space c = false -> trimEnd (c :: t) = c :: trimEnd t.
Proof.
  intros Hc. unfold trimEnd. simpl.
  rewrite trimStart_snoc by exact Hc.
  rewrite rev_app_distr. reflexivity.
Qed.

Lemma trimStart_head (l : jsstring) :
  match trimStart l with
  | [] => first_visible l = None
  | c :: _ => first_visible l = Some c /\ is_white_space c = false
  end.
Proof.
  unfold first_visible.
  induction l as [|x l IH]; simpl; [reflexivity|].
  destruct (is_white_space x) eqn:Hx; simpl; [exact IH|].
  now rewrite Hx.
Qed.

(** The head of the trimmed line is the first character of the line that
    is not white space. *)
Lemma trim_head (l : jsstring) :
  match first_visible l with
  | Some c => exists t, trim l = c :: t
  | None => trim l = []
  end.
Proof.
  unfold trim. pose proof (trimStart_head l) as H.
  destruct (trimStart l) as [|c t].
  - rewrite H. reflexivity.
  - destruct H as [-> Hc]. rewrite trimEnd_cons by exact Hc. eauto.
Qed.

Lemma formatLine_kind (l : jsstring) :
  formatLine l = element (kind_of_line l) (trim l).
Proof.
  unfold formatLine, kind_of_line.
  pose proof (trim_head l) as H.
  destruct (first_visible l) as [c|].
  - destruct H as [t ->].
    change (utf16 "•") with [8226%N]. change (utf16 "-") with [45%N].
    cbn [startsWith]. rewrite !andb_true_r.
    rewrite (N.eqb_sym 8226 c), (N.eqb_sym 45 c).
    destruct (N.eqb c 8226); [reflexivity|].
    destruct (N.eqb c 45); reflexivity.
  - rewrite H. reflexivity.
Qed.

Lemma formatMessage_concat (content : jsstring) :
  formatMessage content =
  concat (map (fun l => element (kind_of_line l) (trim l)) (split_LF content)).
Proof.
  unfold formatMessage. f_equal. apply map_ext. exact formatLine_kind.
Qed.

(** C6, as amended.  The formatter cuts the text at its line feeds into
    lines ([join_LF] of them gives the text back, none holds a line feed,
    and there is one more line than line feeds) and its output is the
    concatenation, in line order, of one element per line.  Each line is
    first trimmed; the element holds the trimmed line and its kind is
    decided by the first character that is not white space: bullet for
    [•], sub-bullet for [-], plain otherwise.  So a line that itself
    starts with [•] or [-] gets the bullet or sub-bullet element, and an
    empty line gets the empty plain element. *)
Theorem formatMessage_lines (content : jsstring) :
  join_LF (split_LF content) = content /\
  Forall (fun l => ~ In LF l) (split_LF content) /\
  length (split_LF content) = S (count_occ N.eq_dec content LF) /\
  formatMessage content =
    concat (map (fun l => element (kind_of_line l) (trim l))
                (split_LF content)) /\
  (forall rest, kind_of_line (utf16 "•" ++ rest) = BulletPoint) /\
  (forall rest, kind_of_line (utf16 "-" ++ rest) = SubBullet) /\
  formatMessage [] = utf16 "<div></div>".
Proof.
  repeat split.
  - apply join_split_LF.
  - apply split_LF_lines.
  - apply split_LF_length.
  - apply formatMessage_concat.
Qed.

(** C6, as stated, fails: the line ["  - x"] starts with neither [•] nor
    [-], yet it is rendered as a sub-bullet holding ["- x"], not as a
    plain element; the formatter that decides on the untrimmed line
    differs from the script's on it. *)
Lemma formatMessage_indented_sub_bullet :
  startsWith (utf16 "  - x") (utf16 "•") = false /\
  startsWith (utf16 "  - x") (utf16 "-") = false /\
  formatMessage (utf16 "  - x") = div_sub_bullet (utf16 "- x") /\
  formatMessage (utf16 "  - x") <> div_plain (utf16 "  - x") /\
  formatMessage (utf16 "  - x") <> formatMessage_spec (utf16 "  - x").
Proof.
  repeat split; try reflexivity; vm_compute; discriminate.
Qed.

(** The decimal literals of the script denote the nearest binary64
    values: the integers themselves, the half, and for [0.1] the correctly
    rounded quotient of 1 by 10. *)
Lemma literals_binary64 :
  num_1 = number_of_Z 1 /\
  num_100 = number_of_Z 100 /\
  maxZoom = number_of_Z 3 /\
  minZoom = SFdiv prec emax (number_of_Z 1) (number_of_Z 2) /\
  zoomStep = SFdiv prec emax (number_of_Z 1) (number_of_Z 10).
Proof. repeat apply conj; reflexivity. Qed.

(** A message of four lines, as the formatter renders it. *)
Example formatMessage_four_lines :
  formatMessage (join_LF (map utf16 ["• a"; "  - b"; ""; "c "]%string)) =
  div_bullet (utf16 "• a") ++ div_sub_bullet (utf16 "- b")
    ++ div_plain [] ++ div_plain (utf16 "c").
Proof. reflexivity. Qed.

(** ** Zoom levels *)

Lemma num_eqb_eq (x y : number) : num_eqb x y = true <-> x = y.
Proof.
  unfold num_eqb. destruct (num_eq_dec x y); split; congruence.
Qed.

Lemma num_mem_In (z : number) (l : list number) :
  num_mem z l = true <-> In z l.
Proof.
  unfold num_mem. rewrite existsb_exists. split.
  - intros [y [Hy Heq]]. apply num_eqb_eq in Heq. now subst.
  - intros H. exists z. split; [exact H|now apply num_eqb_eq].
Qed.

(** The list is the closure it was computed as, growing it adds nothing,
    and it has 89 members. *)
Lemma zoom_values_closure :
  zoom_values = iterate 64 grow [num_1] /\
  grow zoom_values = zoom_values /\
  length zoom_values = 89.
Proof. repeat apply conj; vm_compute; reflexivity. Qed.

Lemma zoom_values_ok : forallb zoom_value_ok zoom_values = true.
Proof. vm_compute. reflexivity. Qed.

Lemma zoom_value_ok_In (z : number) :
  In z zoom_values -> zoom_value_ok z = true.
Proof.
  intros H. pose proof zoom_values_ok as Hall.
  rewrite forallb_forall in Hall. now apply Hall.
Qed.

Lemma one_in_zoom_values : In num_1 zoom_values.
Proof. apply num_mem_In. vm_compute. reflexivity. Qed.

Lemma zoom_in_closed (z : number) :
  In z zoom_values -> In (zoom_in z) zoom_values.
Proof.
  intros H. apply zoom_value_ok_In in H. unfold zoom_value_ok in H.
  rewrite !andb_true_iff in H. apply num_mem_In. tauto.
Qed.

Lemma zoom_out_closed (z : number) :
  In z zoom_values -> In (zoom_out z) zoom_values.
Proof.
  intros H. apply zoom_value_ok_In in H. unfold zoom_value_ok in H.
  rewrite !andb_true_iff in H. apply num_mem_In. tauto.
Qed.

Lemma zoom_value_bounds (z : number) :
  In z zoom_values -> num_le minZoom z = true /\ num_le z maxZoom = true.
Proof.
  intros H. apply zoom_value_ok_In in H. unfold zoom_value_ok in H.
  rewrite !andb_true_iff in H. tauto.
Qed.

Lemma zoom_value_at_max (z : number) :
  In z zoom_values -> (num_ge z maxZoom = true <-> z = maxZoom).
Proof.
  intros H. apply zoom_value_ok_In in H. unfold zoom_value_ok in H.
  rewrite !andb_true_iff in H. destruct H as [[[[[_ H] _] _] _] _].
  apply Bool.eqb_prop in H. rewrite H. apply num_eqb_eq.
Qed.

Lemma zoom_value_at_min (z : number) :
  In z zoom_values -> (num_le z minZoom = true <-> z = minZoom).
Proof.
  intros H. apply zoom_value_ok_In in H. unfold zoom_value_ok in H.
  rewrite !andb_true_iff in H. destruct H as [[[[_ H] _] _] _].
  apply Bool.eqb_prop in H. rewrite H. apply num_eqb_eq.
Qed.

Lemma zoom_in_increases (z : number) :
  In z zoom_values -> num_lt z maxZoom = true -> num_lt z (zoom_in z) = true.
Proof.
  intros H Hlt. apply zoom_value_ok_In in H. unfold zoom_value_ok in H.
  rewrite !andb_true_iff in H. destruct H as [[[_ H] _] _].
  apply Bool.eqb_prop in H. congruence.
Qed.

Lemma zoom_out_decreases (z : number) :
  In z zoom_values -> num_gt z minZoom = true -> num_lt (zoom_out z) z = true.
Proof.
  intros H Hgt. apply zoom_value_ok_In in H. unfold zoom_value_ok in H.
  rewrite !andb_true_iff in H. destruct H as [[_ H] _].
  apply Bool.eqb_prop in H. congruence.
Qed.

(** The percentage shown for a zoom level is an integer between 50 and
    300, far below the magnitude at which number-to-string conversion
    changes notation. *)
Lemma zoom_percent_small (z : number) :
  In z zoom_values ->
  exists n, Math_round (num_mul z num_100) = RInt n /\ (50 <= n <= 300)%Z.
Proof.
  intros H. apply zoom_value_ok_In in H. unfold zoom_value_ok in H.
  rewrite !andb_true_iff in H. destruct H as [_ H].
  destruct (Math_round (num_mul z num_100)) as [| |n]; try discriminate.
  exists n. split; [reflexivity|].
  apply andb_true_iff in H. destruct H as [H1 H2].
  apply Z.leb_le in H1. apply Z.leb_le in H2. lia.
Qed.

(** ** The zoom invariant *)

Ltac viewer_frame :=
  intros;
  repeat match goal with s : State |- _ => destruct s end;
  unfold same_viewer; cbn; repeat split; reflexivity.

Lemma same_viewer_refl (s : State) : same_viewer s s.
Proof. unfold same_viewer. tauto. Qed.

Lemma same_viewer_addMessage (c t : jsstring) (s : State) :
  same_viewer s (addMessage c t s).
Proof. unfold addMessage. viewer_frame. Qed.

Lemma same_viewer_updateMetrics (m : option Metrics) (s : State) :
  same_viewer s (updateMetrics m s).
Proof. unfold updateMetrics. destruct m; viewer_frame. Qed.

Lemma same_viewer_initializeUI (s : State) : same_viewer s (initializeUI s).
Proof. unfold initializeUI, updateMetrics. viewer_frame. Qed.

Lemma same_viewer_repairBtn_onclick (s : State) :
  same_viewer s (repairBtn_onclick s).
Proof. unfold repairBtn_onclick. viewer_frame. Qed.

Lemma same_viewer_generateGraph (s : State) : same_viewer s (generateGraph s).
Proof.
  unfold generateGraph. destruct (trim (userInput_value s)).
  - apply same_viewer_refl.
  - unfold toggleLoading. viewer_frame.
Qed.

Lemma same_viewer_finally (s : State) :
  same_viewer s
    (set_sendBtn_innerHTML label_generate
       (set_sendBtn_disabled false (toggleLoading false s))).
Proof. unfold toggleLoading. viewer_frame. Qed.

Lemma same_viewer_set_chatMessages (v : list MessageDiv) (s : State) :
  same_viewer s (set_chatMessages v s).
Proof. viewer_frame. Qed.

Lemma same_viewer_set_userInput_value (v : jsstring) (s : State) :
  same_viewer s (set_userInput_value v s).
Proof. viewer_frame. Qed.

Lemma same_viewer_set_userInput_focused (v : bool) (s : State) :
  same_viewer s (set_userInput_focused v s).
Proof. viewer_frame. Qed.

Lemma same_viewer_set_inflight_generate (v : list GenerateRequest) (s : State) :
  same_viewer s (set_inflight_generate v s).
Proof. viewer_frame. Qed.

Lemma same_viewer_set_inflight_clear (v : nat) (s : State) :
  same_viewer s (set_inflight_clear v s).
Proof. viewer_frame. Qed.

(** Blocks keep what their parts keep. *)
Lemma keeps_run (I : State -> Prop) (f : State -> State) :
  (forall s, I s -> I (f s)) -> block_keeps I (run f).
Proof. intros H s HI. now apply H. Qed.

Lemma keeps_throw (I : State -> Prop) (message : jsstring) :
  block_keeps I (throw_Error message).
Proof. intros s HI. exact HI. Qed.

Lemma keeps_andThen (I : State -> Prop) (b1 b2 : Block) :
  block_keeps I b1 -> block_keeps I b2 -> block_keeps I (b1 ;; b2).
Proof.
  intros H1 H2 s HI. unfold andThen. specialize (H1 s HI).
  destruct (b1 s) as [s'|m s']; [now apply H2|exact H1].
Qed.

Lemma keeps_try_catch_finally (I : State -> Prop) (body : Block)
    (handler : jsstring -> State -> State) (final : State -> State) :
  block_keeps I body ->
  (forall message s, I s -> I (handler message s)) ->
  (forall s, I s -> I (final s)) ->
  forall s, I s -> I (try_catch_finally body handler final s).
Proof.
  intros Hb Hh Hf s HI. unfold try_catch_finally. specialize (Hb s HI).
  destruct (body s) as [s'|m s']; auto.
Qed.

Section ZoomInvariant.

Variable querySelector_img : jsstring -> bool.
Hypothesis empty_markup_has_no_img : querySelector_img [] = false.

Local Abbreviation Inv := (zoom_inv querySelector_img).

Lemma zoom_inv_frame (s s' : State) : same_viewer s s' -> Inv s -> Inv s'.
Proof.
  unfold same_viewer, zoom_inv, zoom_synced.
  intros (-> & -> & -> & -> & -> & ->). tauto.
Qed.

Lemma zoom_inv_updateZoom (s : State) :
  In (currentZoom s) zoom_values -> Inv (updateZoom querySelector_img s).
Proof.
  intros Hin. unfold updateZoom, zoom_inv.
  destruct (querySelector_img (graphContent_innerHTML s)) eqn:Himg.
  - destruct s; cbn in *. split; [exact Hin|]. intros _.
    unfold zoom_synced; cbn. repeat split.
  - split; [exact Hin|]. congruence.
Qed.

Lemma currentZoom_set_currentZoom (z : number) (s : State) :
  currentZoom (set_currentZoom z s) = z.
Proof. destruct s; reflexivity. Qed.

Lemma zoom_inv_zoomIn_onclick (s : State) :
  Inv s -> Inv (zoomIn_onclick querySelector_img s).
Proof.
  intros HI. unfold zoomIn_onclick.
  destruct (num_lt (currentZoom s) maxZoom) eqn:Hlt; [|exact HI].
  apply zoom_inv_updateZoom. rewrite currentZoom_set_currentZoom.
  pose proof (zoom_in_closed (currentZoom s) (proj1 HI)) as H.
  unfold zoom_in in H. now rewrite Hlt in H.
Qed.

Lemma zoom_inv_zoomOut_onclick (s : State) :
  Inv s -> Inv (zoomOut_onclick querySelector_img s).
Proof.
  intros HI. unfold zoomOut_onclick.
  destruct (num_gt (currentZoom s) minZoom) eqn:Hgt; [|exact HI].
  apply zoom_inv_updateZoom. rewrite currentZoom_set_currentZoom.
  pose proof (zoom_out_closed (currentZoom s) (proj1 HI)) as H.
  unfold zoom_out in H. now rewrite Hgt in H.
Qed.

Lemma zoom_inv_onwheel (e : WheelEvent) (s : State) :
  Inv s -> Inv (graphImage_onwheel querySelector_img e s).
Proof.
  intros HI. unfold graphImage_onwheel.
  destruct (wheel_ctrlKey e || wheel_metaKey e); [|exact HI].
  apply zoom_inv_updateZoom.
  pose proof (zoom_in_closed (currentZoom s) (proj1 HI)) as Hin.
  pose proof (zoom_out_closed (currentZoom s) (proj1 HI)) as Hout.
  unfold zoom_in in Hin. unfold zoom_out in Hout.
  destruct (num_lt _ num_0); cbn [andb].
  - destruct (num_lt (currentZoom s) maxZoom).
    + now rewrite currentZoom_set_currentZoom.
    + destruct (num_gt _ num_0 && num_gt (currentZoom s) minZoom) eqn:Hc.
      * apply andb_true_iff in Hc. destruct Hc as [_ Hc]. rewrite Hc in Hout.
        now rewrite currentZoom_set_currentZoom.
      * apply HI.
  - destruct (num_gt _ num_0 && num_gt (currentZoom s) minZoom) eqn:Hc.
    + apply andb_true_iff in Hc. destruct Hc as [_ Hc]. rewrite Hc in Hout.
      now rewrite currentZoom_set_currentZoom.
    + apply HI.
Qed.

Lemma zoom_inv_set_image (content : jsstring) (s : State) :
  includes content (utf16 "<img") = true ->
  Inv (graphImage_set_innerHTML querySelector_img content s).
Proof.
  intros Hinc. unfold graphImage_set_innerHTML. rewrite Hinc.
  apply zoom_inv_updateZoom. rewrite currentZoom_set_currentZoom.
  exact one_in_zoom_values.
Qed.

Lemma zoom_inv_set_no_image (content : jsstring) (s : State) :
  includes content (utf16 "<img") = false ->
  querySelector_img content = false ->
  Inv s -> Inv (graphImage_set_innerHTML querySelector_img content s).
Proof.
  intros Hinc Himg [Hin _]. unfold graphImage_set_innerHTML. rewrite Hinc.
  unfold graphContent_set_innerHTML, zoom_inv. destruct s; cbn in *.
  split; [exact Hin|]. congruence.
Qed.

Lemma img_markup_includes (b : jsstring) :
  includes (img_markup b) (utf16 "<img") = true.
Proof. reflexivity. Qed.

Lemma zoom_inv_click_zoomIn (s : State) :
  Inv s -> Inv (click_zoomIn querySelector_img s).
Proof.
  intros HI. unfold click_zoomIn. destruct (zoomIn_disabled s);
    [exact HI|now apply zoom_inv_zoomIn_onclick].
Qed.

Lemma zoom_inv_click_zoomOut (s : State) :
  Inv s -> Inv (click_zoomOut querySelector_img s).
Proof.
  intros HI. unfold click_zoomOut. destruct (zoomOut_disabled s);
    [exact HI|now apply zoom_inv_zoomOut_onclick].
Qed.

Lemma zoom_inv_onkeydown (e : KeyboardEvent) (s : State) :
  Inv s -> Inv (document_onkeydown querySelector_img e s).
Proof.
  intros HI. unfold document_onkeydown.
  destruct (key_ctrlKey e || key_metaKey e); [|exact HI].
  destruct (_ || _); [now apply zoom_inv_click_zoomIn|].
  destruct (jsstring_eqb _ _); [now apply zoom_inv_click_zoomOut|exact HI].
Qed.

Lemma keeps_frame (f : State -> State) :
  (forall s, same_viewer s (f s)) -> block_keeps Inv (run f).
Proof.
  intros H. apply (keeps_run Inv). intros s. apply zoom_inv_frame, H.
Qed.

Lemma keeps_generateGraph_try (input : jsstring) (r : Fetched GenerateData) :
  block_keeps Inv (generateGraph_try querySelector_img input r).
Proof.
  destruct r as [data|message]; [|apply (keeps_throw Inv)].
  cbn [generateGraph_try]. repeat apply (keeps_andThen Inv).
  - destruct (error data) as [[|? ?]|];
      [apply keeps_frame, same_viewer_refl|apply (keeps_throw Inv)
      |apply keeps_frame, same_viewer_refl].
  - apply keeps_frame. intros s. apply same_viewer_addMessage.
  - apply keeps_frame. intros s.
    destruct (chat_history data) as [[|m h]|]; try apply same_viewer_refl.
    destruct (jsstring_eqb _ _);
      [apply same_viewer_addMessage|apply same_viewer_refl].
  - apply (keeps_run Inv). intros s HI.
    destruct (cfg_image data) as [[|c b]|]; try exact HI.
    apply zoom_inv_set_image, img_markup_includes.
  - apply keeps_frame. intros s. destruct (metrics data);
      [apply same_viewer_updateMetrics|apply same_viewer_refl].
  - apply keeps_frame, same_viewer_set_userInput_value.
  - apply keeps_frame, same_viewer_set_userInput_focused.
Qed.

Lemma zoom_inv_generateGraph_resume (input : jsstring)
    (r : Fetched GenerateData) (s : State) :
  Inv s -> Inv (generateGraph_resume querySelector_img input r s).
Proof.
  unfold generateGraph_resume. apply (keeps_try_catch_finally Inv).
  - apply keeps_generateGraph_try.
  - intros message s0. apply zoom_inv_frame, same_viewer_addMessage.
  - intros s0. apply zoom_inv_frame, same_viewer_finally.
Qed.

Lemma zoom_inv_clearChat_resume (r : Fetched ClearData) (s : State) :
  Inv s -> Inv (clearChat_resume querySelector_img r s).
Proof.
  intros HI. unfold clearChat_resume.
  destruct r as [data|message]; [|exact HI].
  destruct (jsstring_eqb _ _); [|exact HI].
  eapply zoom_inv_frame; [apply same_viewer_initializeUI|].
  eapply zoom_inv_frame; [apply same_viewer_addMessage|].
  eapply zoom_inv_frame; [apply same_viewer_updateMetrics|].
  eapply zoom_inv_frame; [apply same_viewer_set_userInput_value|].
  apply zoom_inv_set_no_image;
    [reflexivity|exact empty_markup_has_no_img|].
  eapply zoom_inv_frame; [apply same_viewer_set_chatMessages|exact HI].
Qed.

Lemma zoom_inv_load (page : Page) : Inv (DOMContentLoaded page).
Proof.
  unfold DOMContentLoaded.
  eapply zoom_inv_frame; [apply same_viewer_initializeUI|].
  unfold zoom_inv; cbn. split; [exact one_in_zoom_values|].
  rewrite empty_markup_has_no_img. discriminate.
Qed.

Lemma zoom_inv_step (ev : Event) (s : State) :
  Inv s -> Inv (step querySelector_img ev s).
Proof.
  intros HI. destruct ev; cbn [step].
  - now apply zoom_inv_click_zoomIn.
  - now apply zoom_inv_click_zoomOut.
  - eapply zoom_inv_frame; [apply same_viewer_repairBtn_onclick|exact HI].
  - destruct (sendBtn_disabled s); [exact HI|].
    eapply zoom_inv_frame; [apply same_viewer_generateGraph|exact HI].
  - eapply zoom_inv_frame; [apply same_viewer_set_inflight_clear|exact HI].
  - apply zoom_inv_onkeydown. destruct in_userInput; [|exact HI].
    unfold userInput_onkeydown. destruct (_ && _); [|exact HI].
    eapply zoom_inv_frame; [apply same_viewer_generateGraph|exact HI].
  - now apply zoom_inv_onwheel.
  - eapply zoom_inv_frame; [apply same_viewer_set_userInput_value|exact HI].
  - eapply zoom_inv_frame; [apply same_viewer_set_userInput_focused|exact HI].
  - destruct (nth_error (inflight_generate s) i); [|exact HI].
    apply zoom_inv_generateGraph_resume.
    eapply zoom_inv_frame; [apply same_viewer_set_inflight_generate|exact HI].
  - destruct (inflight_clear s); [exact HI|].
    apply zoom_inv_clearChat_resume.
    eapply zoom_inv_frame; [apply same_viewer_set_inflight_clear|exact HI].
Qed.

Lemma zoom_inv_reachable (s : State) :
  reachable querySelector_img s -> Inv s.
Proof.
  induction 1 as [page|ev s _ IH]; [apply zoom_inv_load|].
  now apply zoom_inv_step.
Qed.

End ZoomInvariant.

(** ** Chat messages *)

Lemma addMessage_assistant (c : jsstring) (s : State) :
  addMessage c assistant s =
  set_chatMessages (chatMessages s ++ [assistant_message c]) s.
Proof. reflexivity. Qed.

Lemma addMessage_user (c : jsstring) (s : State) :
  addMessage c user s = set_chatMessages (chatMessages s ++ [user_message c]) s.
Proof. reflexivity. Qed.

Ltac chat_frame :=
  intros;
  repeat match goal with s : State |- _ => destruct s end;
  cbn;
  repeat (match goal with
          | |- context [if ?c then _ else _] => destruct c
          end; cbn);
  reflexivity.

Lemma chat_updateZoom (P : jsstring -> bool) (s : State) :
  chatMessages (updateZoom P s) = chatMessages s.
Proof. unfold updateZoom. chat_frame. Qed.

Lemma chat_click_zoomIn (P : jsstring -> bool) (s : State) :
  chatMessages (click_zoomIn P s) = chatMessages s.
Proof.
  unfold click_zoomIn, zoomIn_onclick.
  destruct (zoomIn_disabled s); [reflexivity|].
  destruct (num_lt _ _); [|reflexivity].
  rewrite chat_updateZoom. now destruct s.
Qed.

Lemma chat_click_zoomOut (P : jsstring -> bool) (s : State) :
  chatMessages (click_zoomOut P s) = chatMessages s.
Proof.
  unfold click_zoomOut, zoomOut_onclick.
  destruct (zoomOut_disabled s); [reflexivity|].
  destruct (num_gt _ _); [|reflexivity].
  rewrite chat_updateZoom. now destruct s.
Qed.

Lemma chat_onkeydown (P : jsstring -> bool) (e : KeyboardEvent) (s : State) :
  chatMessages (document_onkeydown P e s) = chatMessages s.
Proof.
  unfold document_onkeydown.
  destruct (_ || _); [|reflexivity].
  destruct (_ || _); [apply chat_click_zoomIn|].
  destruct (jsstring_eqb _ _); [apply chat_click_zoomOut|reflexivity].
Qed.

Lemma chat_onwheel (P : jsstring -> bool) (e : WheelEvent) (s : State) :
  chatMessages (graphImage_onwheel P e s) = chatMessages s.
Proof.
  unfold graphImage_onwheel.
  destruct (_ || _); [|reflexivity]. rewrite chat_updateZoom.
  destruct (_ && _); [now destruct s|].
  destruct (_ && _); [now destruct s|reflexivity].
Qed.

Lemma chat_graphImage_set_innerHTML (P : jsstring -> bool) (c : jsstring)
    (s : State) :
  chatMessages (graphImage_set_innerHTML P c s) = chatMessages s.
Proof.
  unfold graphImage_set_innerHTML.
  destruct (includes c _); [rewrite chat_updateZoom|]; now destruct s.
Qed.

Lemma chat_updateMetrics (m : option Metrics) (s : State) :
  chatMessages (updateMetrics m s) = chatMessages s.
Proof. unfold updateMetrics. destruct m; now destruct s. Qed.

Lemma chat_initializeUI (s : State) :
  chatMessages (initializeUI s) = chatMessages s.
Proof. now destruct s. Qed.

Lemma chat_generateGraph (s : State) :
  chatMessages (generateGraph s) = chatMessages s.
Proof.
  unfold generateGraph. destruct (trim _); [reflexivity|]. now destruct s.
Qed.

Lemma chat_addMessage (c t : jsstring) (s : State) :
  chatMessages (addMessage c t s) =
  chatMessages s ++
    [if jsstring_eqb t assistant
     then mkMessageDiv (utf16 "message " ++ t) (InnerHTML (formatMessage c))
     else mkMessageDiv (utf16 "message " ++ t) (TextContent c)].
Proof. unfold addMessage. now destruct s. Qed.

Section Transcript.

Variable querySelector_img : jsstring -> bool.
Variable page : Page.

Local Abbreviation TInv := (transcript_inv page).

Lemma transcript_inv_same (s s' : State) :
  chatMessages s' = chatMessages s -> TInv s -> TInv s'.
Proof. unfold transcript_inv. now intros ->. Qed.

Lemma transcript_inv_user (c : jsstring) (s : State) :
  TInv s -> TInv (addMessage c user s).
Proof.
  unfold transcript_inv. intros H. rewrite chat_addMessage.
  apply Forall_app. split; [exact H|].
  constructor; [|constructor]. right. left. now exists c.
Qed.

Lemma transcript_inv_assistant (c : jsstring) (s : State) :
  TInv s -> TInv (addMessage c assistant s).
Proof.
  unfold transcript_inv. intros H. rewrite chat_addMessage.
  apply Forall_app. split; [exact H|].
  constructor; [|constructor]. right. right. now exists c.
Qed.

Lemma transcript_inv_wiped (s : State) : TInv (set_chatMessages [] s).
Proof. unfold transcript_inv. destruct s; cbn. constructor. Qed.

Lemma transcript_keeps_try (input : jsstring) (r : Fetched GenerateData) :
  block_keeps TInv (generateGraph_try querySelector_img input r).
Proof.
  destruct r as [data|message]; [|apply (keeps_throw TInv)].
  cbn [generateGraph_try]. repeat apply (keeps_andThen TInv).
  - destruct (error data) as [[|? ?]|];
      [|apply (keeps_throw TInv)|]; apply (keeps_run TInv); auto.
  - apply (keeps_run TInv). intros s. apply transcript_inv_user.
  - apply (keeps_run TInv). intros s HI.
    destruct (chat_history data) as [[|m h]|]; try exact HI.
    destruct (jsstring_eqb _ _); [now apply transcript_inv_assistant|exact HI].
  - apply (keeps_run TInv). intros s HI.
    destruct (cfg_image data) as [[|c b]|]; try exact HI.
    eapply transcript_inv_same; [apply chat_graphImage_set_innerHTML|exact HI].
  - apply (keeps_run TInv). intros s HI. destruct (metrics data); [|exact HI].
    eapply transcript_inv_same; [apply chat_updateMetrics|exact HI].
  - apply (keeps_run TInv). intros s.
    apply transcript_inv_same. now destruct s.
  - apply (keeps_run TInv). intros s.
    apply transcript_inv_same. now destruct s.
Qed.

Lemma transcript_inv_step (ev : Event) (s : State) :
  TInv s -> TInv (step querySelector_img ev s).
Proof.
  intros HI. destruct ev; cbn [step].
  - eapply transcript_inv_same; [apply chat_click_zoomIn|exact HI].
  - eapply transcript_inv_same; [apply chat_click_zoomOut|exact HI].
  - eapply transcript_inv_same; [|exact HI]. now destruct s.
  - destruct (sendBtn_disabled s); [exact HI|].
    eapply transcript_inv_same; [apply chat_generateGraph|exact HI].
  - eapply transcript_inv_same; [|exact HI]. now destruct s.
  - eapply transcript_inv_same; [apply chat_onkeydown|].
    destruct in_userInput; [|exact HI]. unfold userInput_onkeydown.
    destruct (_ && _); [|exact HI].
    eapply transcript_inv_same; [apply chat_generateGraph|exact HI].
  - eapply transcript_inv_same; [apply chat_onwheel|exact HI].
  - eapply transcript_inv_same; [|exact HI]. now destruct s.
  - eapply transcript_inv_same; [|exact HI]. now destruct s.
  - destruct (nth_error (inflight_generate s) i); [|exact HI].
    unfold generateGraph_resume. apply (keeps_try_catch_finally TInv).
    + apply transcript_keeps_try.
    + intros message s0. apply transcript_inv_assistant.
    + intros s0. apply transcript_inv_same. now destruct s0.
    + eapply transcript_inv_same; [|exact HI]. now destruct s.
  - destruct (inflight_clear s); [exact HI|].
    unfold clearChat_resume. destruct r as [data|message].
    + destruct (jsstring_eqb _ _).
      * eapply transcript_inv_same; [apply chat_initializeUI|].
        apply transcript_inv_assistant.
        eapply transcript_inv_same; [apply chat_updateMetrics|].
        eapply transcript_inv_same;
          [|apply (transcript_inv_wiped (set_inflight_clear n s))].
        rewrite <- (chat_graphImage_set_innerHTML querySelector_img []
                      (set_chatMessages [] (set_inflight_clear n s))).
        generalize (graphImage_set_innerHTML querySelector_img []
                      (set_chatMessages [] (set_inflight_clear n s))).
        intros s0. now destruct s0.
      * eapply transcript_inv_same; [|exact HI]. now destruct s.
    + eapply transcript_inv_same; [|exact HI]. now destruct s.
Qed.

Lemma transcript_inv_run_events (evs : list Event) :
  TInv (run_events querySelector_img evs (DOMContentLoaded page)).
Proof.
  assert (H0 : TInv (DOMContentLoaded page)).
  { unfold transcript_inv. cbn. apply Forall_forall. now left. }
  revert H0. generalize (DOMContentLoaded page).
  induction evs as [|ev evs IH]; intros s Hs; [exact Hs|].
  cbn. apply IH. now apply transcript_inv_step.
Qed.

End Transcript.

(** C7.  [addMessage] appends one node of class [message <type>] and
    changes nothing else.  For the assistant role the node's content is
    the formatted markup, written through [innerHTML]; for the user role,
    and for any other role, it is the content itself written through
    [textContent], whatever the content holds.  Every call in the script
    passes one of the two roles: after any sequence of events, each node
    of the transcript that did not come with the page is a user node
    holding text or an assistant node holding formatted markup.  The
    function is the same in both revisions of the script. *)
Theorem addMessage_asymmetry (content type : jsstring) (s : State) :
  addMessage content user s =
    set_chatMessages
      (chatMessages s ++
         [mkMessageDiv (utf16 "message user") (TextContent content)]) s /\
  addMessage content assistant s =
    set_chatMessages
      (chatMessages s ++
         [mkMessageDiv (utf16 "message assistant")
                       (InnerHTML (formatMessage content))]) s /\
  addMessage content type s =
    set_chatMessages
      (chatMessages s ++
         [mkMessageDiv (utf16 "message " ++ type)
            (if jsstring_eqb type (utf16 "assistant")
             then InnerHTML (formatMessage content)
             else TextContent content)]) s /\
  (forall (P : jsstring -> bool) (page : Page) (evs : list Event),
     Forall (fun d =>
               In d (html_chatMessages page) \/
               (exists c, d = mkMessageDiv (utf16 "message user")
                                           (TextContent c)) \/
               (exists c, d = mkMessageDiv (utf16 "message assistant")
                                           (InnerHTML (formatMessage c))))
            (chatMessages (run_events P evs (DOMContentLoaded page)))).
Proof.
  repeat apply conj; try reflexivity.
  - unfold addMessage.
    destruct (jsstring_eqb type assistant) eqn:E;
      change (jsstring_eqb type (utf16 "assistant")) with
        (jsstring_eqb type assistant); rewrite E; reflexivity.
  - intros P page evs. exact (transcript_inv_run_events P page evs).
Qed.

(** ** The generate flow *)

Lemma generateGraph_resume_error (P : jsstring -> bool)
    (input e : jsstring) (h : option (list ChatEntry))
    (b : option jsstring) (m : option Metrics) (s : State) :
  e <> [] ->
  generateGraph_resume P input (Resolved (mkGenerateData (Some e) h b m)) s =
  set_sendBtn_innerHTML label_generate
    (set_sendBtn_disabled false
       (toggleLoading false
          (addMessage (utf16 "• Error: " ++ e) assistant s))).
Proof.
  intros He. destruct e as [|c e]; [contradiction|]. reflexivity.
Qed.

(** C1, as amended.  When the payload of a [/generate] response has a
    non-empty [error] text [e], the flow appends exactly one message, an
    assistant message reading "• Error: e", and no user message: the
    error check runs before the user's input would be echoed.  Neither
    the image viewer, the zoom, the metrics nor the input field changes,
    whatever else the payload carries; the loading indicator is hidden
    and the send button restored. *)
Theorem generate_error_surfacing (P : jsstring -> bool)
    (input e : jsstring) (h : option (list ChatEntry))
    (b : option jsstring) (m : option Metrics) (s : State) :
  e <> [] ->
  let s' :=
    generateGraph_resume P input (Resolved (mkGenerateData (Some e) h b m)) s in
  chatMessages s' =
    chatMessages s ++ [assistant_message (utf16 "• Error: " ++ e)] /\
  graphContent_innerHTML s' = graphContent_innerHTML s /\
  image_transform s' = image_transform s /\
  currentZoom s' = currentZoom s /\
  zoomLevel_textContent s' = zoomLevel_textContent s /\
  metricsDisplay s' = metricsDisplay s /\
  userInput_value s' = userInput_value s /\
  loadingOverlay_hidden s' = true /\
  sendBtn_disabled s' = false /\
  sendBtn_innerHTML s' = label_generate.
Proof.
  intros He s'. subst s'. rewrite generateGraph_resume_error by exact He.
  rewrite addMessage_assistant. destruct s; cbn. repeat split.
Qed.

Lemma generate_error_surfacing_witness :
  utf16 "bad input" <> [] /\
  let s := generateGraph
             (set_userInput_value (utf16 "draw a loop")
                (DOMContentLoaded blank_page)) in
  let s' :=
    generateGraph_resume sniff_img (utf16 "draw a loop")
      (Resolved (mkGenerateData (Some (utf16 "bad input")) None None None)) s in
  chatMessages s' =
    [mkMessageDiv (utf16 "message assistant")
       (InnerHTML (div_bullet (utf16 "• Error: bad input")))].
Proof.
  split; [discriminate|].
  exact (proj1 (generate_error_surfacing sniff_img (utf16 "draw a loop")
                  (utf16 "bad input") None None None
                  (generateGraph
                     (set_userInput_value (utf16 "draw a loop")
                        (DOMContentLoaded blank_page)))
                  ltac:(discriminate))).
Defined.

(** C1, as stated, fails on the ordering: the user types "draw a loop" on
    a fresh page, sends it, and the server answers [{error: "bad input"}].
    The transcript then holds the error message alone; the user's input
    was not echoed, neither before nor after the error check. *)
Lemma generate_error_no_user_echo :
  let evs :=
    [ Edit_userInput (utf16 "draw a loop");
      Click_sendBtn;
      Response_generate 0
        (Resolved (mkGenerateData (Some (utf16 "bad input")) None None None)) ] in
  let s' := run_events sniff_img evs (DOMContentLoaded blank_page) in
  chatMessages s' = [assistant_message (utf16 "• Error: bad input")] /\
  ~ In (user_message (utf16 "draw a loop")) (chatMessages s') /\
  (forall d, In d (chatMessages s') -> className d <> utf16 "message user").
Proof.
  cbv zeta. split; [reflexivity|]. split.
  - intros [H|[]]. discriminate H.
  - intros d [<-|[]]. discriminate.
Qed.

(** ** The clear flow *)

(** C8.  When [/clear_session] answers [{status: "success"}], the
    transcript afterwards holds exactly one message, the welcome message
    formatted as an assistant message; the image viewer is empty; the
    input field is empty and focused; the three metric cells read "-";
    the repair flag is false.  This holds from every state and in both
    revisions of the script: in the earlier one [initializeUI] would add
    the welcome message itself, but finds the transcript already
    holding it. *)
Theorem clear_success_resets (P : jsstring -> bool) (s : State) :
  (let s' := clearChat_resume P success s in
   chatMessages s' = [assistant_message WELCOME_MESSAGE] /\
   graphContent_innerHTML s' = [] /\
   image_transform s' = None /\
   userInput_value s' = [] /\
   userInput_focused s' = true /\
   metricsDisplay s' = no_metrics /\
   isRepairMode s' = false) /\
  (let s' := Part000.clearChat_resume success s in
   chatMessages s' = [assistant_message WELCOME_MESSAGE] /\
   graphContent_innerHTML s' = [] /\
   userInput_value s' = [] /\
   userInput_focused s' = true /\
   metricsDisplay s' = no_metrics /\
   isRepairMode s' = false).
Proof.
  split; destruct s; cbv zeta; repeat apply conj; vm_compute; reflexivity.
Qed.

(** C3, as amended.  A successful clear sets [isRepairMode] to false and
    removes the repair button's active class.  It leaves [currentZoom],
    the zoom label and the loading indicator exactly as they were: the
    empty markup it writes to the viewer takes the branch of the setter
    that does not reset the zoom. *)
Theorem clear_success_session_state (P : jsstring -> bool) (s : State) :
  let s' := clearChat_resume P success s in
  isRepairMode s' = false /\
  repairBtn_active s' = false /\
  currentZoom s' = currentZoom s /\
  zoomLevel_textContent s' = zoomLevel_textContent s /\
  zoomIn_disabled s' = zoomIn_disabled s /\
  zoomOut_disabled s' = zoomOut_disabled s /\
  loadingOverlay_hidden s' = loadingOverlay_hidden s.
Proof.
  destruct s; cbv zeta; repeat apply conj; vm_compute; reflexivity.
Qed.

(** C3, as stated, fails: after one click on zoom-in and a successful
    clear, [currentZoom] is 1.1 (the binary64 sum of 1 and 0.1), not 1.0;
    and a clear that succeeds while a generate request is in flight
    leaves the loading indicator shown. *)
Lemma clear_success_keeps_zoom :
  (let s' := run_events sniff_img
               [Click_zoomIn; Click_clearBtn; Response_clear success]
               (DOMContentLoaded blank_page) in
   currentZoom s' = num_add num_1 zoomStep /\
   currentZoom s' <> num_1) /\
  (let s' := run_events sniff_img
               [Edit_userInput (utf16 "draw a loop"); Click_sendBtn;
                Click_clearBtn; Response_clear success]
               (DOMContentLoaded blank_page) in
   loadingOverlay_hidden s' = false).
Proof.
  cbv zeta. repeat apply conj; try (vm_compute; reflexivity).
  vm_compute. discriminate.
Qed.

(** ** The repair toggle *)

(** C9, as amended.  Two consecutive clicks on the repair toggle restore
    [isRepairMode] and the button's active class, and change nothing but
    the placeholder, which ends as the text belonging to the restored
    flag: the repair text when the flag is set, the describe text when
    it is not.  That is the placeholder from before the two clicks
    whenever it then matched the flag, as it does after any click.  The
    listener is the same in both revisions of the script. *)
Theorem repair_toggle_twice (s : State) :
  let s2 := repairBtn_onclick (repairBtn_onclick s) in
  isRepairMode s2 = isRepairMode s /\
  repairBtn_active s2 = repairBtn_active s /\
  userInput_placeholder s2 =
    (if isRepairMode s then placeholder_repair else placeholder_describe) /\
  s2 = set_userInput_placeholder
         (if isRepairMode s then placeholder_repair else placeholder_describe)
         s /\
  repairBtn_onclick (repairBtn_onclick (repairBtn_onclick s)) =
    repairBtn_onclick s.
Proof.
  destruct s as [r ? ? ? ? ? ? ? a ? ? ? ? ? ? ? ? ?].
  destruct r, a; cbv zeta; repeat apply conj; vm_compute; reflexivity.
Qed.

(** C9, as stated, fails on the placeholder: the user switches repair
    mode on and clears the session; the clear resets the flag and the
    active class but not the placeholder, which still reads the repair
    text.  Two clicks later the flag and the class are as before the
    clicks, and the placeholder reads the describe text. *)
Lemma repair_toggle_placeholder_after_clear :
  let s := run_events sniff_img
             [Click_repairBtn; Click_clearBtn; Response_clear success]
             (DOMContentLoaded blank_page) in
  let s2 := run_events sniff_img [Click_repairBtn; Click_repairBtn] s in
  isRepairMode s = false /\
  userInput_placeholder s = placeholder_repair /\
  isRepairMode s2 = isRepairMode s /\
  repairBtn_active s2 = repairBtn_active s /\
  userInput_placeholder s2 = placeholder_describe /\
  userInput_placeholder s2 <> userInput_placeholder s.
Proof.
  cbv zeta. repeat apply conj; try (vm_compute; reflexivity).
  vm_compute. discriminate.
Qed.

(** ** The image viewer *)

Lemma percent_text_1 : percent_text num_1 = utf16 "100%".
Proof. reflexivity. Qed.

(** C5.  Writing markup to the image container always replaces the
    viewer's content.  When the markup holds an image tag ([<img]
    occurs in it), [currentZoom] is 1.0 afterwards, and where that tag
    gave an image element the element is scaled by 1, the label reads
    "100%" and both zoom buttons are enabled: the reset comes before the
    scale is applied.  When the markup holds no image tag, zoom level,
    label and buttons stay as they were.  The markup the generate flow
    writes holds an image tag for every payload; the empty string the
    clear flow writes holds none. *)
Theorem image_write_resets_zoom (P : jsstring -> bool)
    (content : jsstring) (s : State) :
  let s' := graphImage_set_innerHTML P content s in
  graphContent_innerHTML s' = content /\
  (if includes content (utf16 "<img") then
     currentZoom s' = num_1 /\
     (if P content then
        image_transform s' = Some num_1 /\
        zoomLevel_textContent s' = utf16 "100%" /\
        zoomIn_disabled s' = false /\
        zoomOut_disabled s' = false
      else
        zoomLevel_textContent s' = zoomLevel_textContent s)
   else
     currentZoom s' = currentZoom s /\
     zoomLevel_textContent s' = zoomLevel_textContent s /\
     zoomIn_disabled s' = zoomIn_disabled s /\
     zoomOut_disabled s' = zoomOut_disabled s) /\
  (forall cfg_image, includes (img_markup cfg_image) (utf16 "<img") = true) /\
  includes [] (utf16 "<img") = false.
Proof.
  cbv zeta. unfold graphImage_set_innerHTML, updateZoom.
  destruct (includes content (utf16 "<img")) eqn:Hinc.
  - destruct s; cbn. destruct (P content) eqn:HP; cbn; rewrite ?HP;
      repeat apply conj; vm_compute; reflexivity.
  - destruct s; cbn. repeat apply conj; vm_compute; reflexivity.
Qed.

(** ** Zoom steps *)

Lemma reachable_run_events (P : jsstring -> bool) (evs : list Event)
    (s : State) :
  reachable P s -> reachable P (run_events P evs s).
Proof.
  revert s. induction evs as [|ev evs IH]; intros s Hs; [exact Hs|].
  cbn. apply IH. now constructor.
Qed.

Lemma zoom_inv_run_events (P : jsstring -> bool) (page : Page)
    (evs : list Event) :
  P [] = false -> zoom_inv P (run_events P evs (DOMContentLoaded page)).
Proof.
  intros HP. apply zoom_inv_reachable; [exact HP|].
  apply reachable_run_events. constructor.
Qed.

(** C4, as amended.  After every sequence of events from page load (zoom
    clicks, shortcuts and wheel events, interleaved with anything else
    the page can do), [currentZoom] lies between 0.5 and 3.0; and while
    the viewer holds an image element, the zoom-in button is disabled
    exactly when [currentZoom] is 3.0 and the zoom-out button exactly
    when it is 0.5.  The only assumption on the browser is that empty
    markup yields no image element. *)
Theorem zoom_bounds_and_buttons (P : jsstring -> bool) (page : Page)
    (evs : list Event) :
  P [] = false ->
  let s := run_events P evs (DOMContentLoaded page) in
  num_le minZoom (currentZoom s) = true /\
  num_le (currentZoom s) maxZoom = true /\
  (P (graphContent_innerHTML s) = true ->
   (zoomIn_disabled s = true <-> currentZoom s = maxZoom) /\
   (zoomOut_disabled s = true <-> currentZoom s = minZoom)).
Proof.
  intros HP s. destruct (zoom_inv_run_events P page evs HP) as [Hin Hsync].
  fold s in Hin, Hsync.
  destruct (zoom_value_bounds _ Hin) as [Hlo Hhi].
  repeat split; try assumption;
    destruct (Hsync H) as (_ & _ & Hzi & Hzo).
  - rewrite Hzi. apply zoom_value_at_max, Hin.
  - rewrite Hzi. apply zoom_value_at_max, Hin.
  - rewrite Hzo. apply zoom_value_at_min, Hin.
  - rewrite Hzo. apply zoom_value_at_min, Hin.
Qed.

Lemma zoom_bounds_and_buttons_witness :
  sniff_img [] = false /\
  let s := run_events sniff_img session_zoomed_in (DOMContentLoaded blank_page) in
  sniff_img (graphContent_innerHTML s) = true /\
  num_le minZoom (currentZoom s) = true /\
  num_le (currentZoom s) maxZoom = true /\
  (zoomIn_disabled s = true <-> currentZoom s = maxZoom) /\
  (zoomOut_disabled s = true <-> currentZoom s = minZoom).
Proof.
  split; [reflexivity|]. cbv zeta. split; [vm_compute; reflexivity|].
  pose proof (zoom_bounds_and_buttons sniff_img blank_page session_zoomed_in
                eq_refl) as H.
  cbv zeta in H. destruct H as (Hlo & Hhi & Hb).
  split; [exact Hlo|]. split; [exact Hhi|].
  apply Hb. vm_compute. reflexivity.
Defined.

(** C4, as stated, fails on the buttons: on a freshly loaded page, where
    the viewer holds no image, twenty clicks on zoom-in bring
    [currentZoom] to 3.0 and leave the zoom-in button enabled; six
    clicks on zoom-out bring it to 0.5 and leave the zoom-out button
    enabled. *)
Lemma zoom_buttons_enabled_at_bounds_without_image :
  (let s := run_events sniff_img (repeat Click_zoomIn 20)
              (DOMContentLoaded blank_page) in
   currentZoom s = maxZoom /\ zoomIn_disabled s = false) /\
  (let s := run_events sniff_img (repeat Click_zoomOut 6)
              (DOMContentLoaded blank_page) in
   currentZoom s = minZoom /\ zoomOut_disabled s = false).
Proof.
  cbv zeta. repeat apply conj; vm_compute; reflexivity.
Qed.

Lemma wheel_up_delta (e : WheelEvent) :
  wheel_up e = true ->
  num_or (num_or (deltaY e) (detail e)) (wheelDelta e) = deltaY e.
Proof.
  unfold wheel_up, num_or, num_lt. destruct (deltaY e) as [[]|[]| |[] m x];
    cbn; intros H; try discriminate H; reflexivity.
Qed.

Lemma wheel_down_delta (e : WheelEvent) :
  wheel_down e = true ->
  num_or (num_or (deltaY e) (detail e)) (wheelDelta e) = deltaY e.
Proof.
  unfold wheel_down, num_or, num_gt. destruct (deltaY e) as [[]|[]| |[] m x];
    cbn; intros H; try discriminate H; reflexivity.
Qed.

Lemma wheel_up_not_down (e : WheelEvent) :
  wheel_up e = true -> wheel_down e = false.
Proof.
  unfold wheel_up, wheel_down, num_lt, num_gt.
  destruct (deltaY e) as [[]|[]| |[] m x]; cbn; intros H;
    try discriminate H; reflexivity.
Qed.

Lemma currentZoom_updateZoom (P : jsstring -> bool) (s : State) :
  currentZoom (updateZoom P s) = currentZoom s.
Proof.
  unfold updateZoom. destruct (P (graphContent_innerHTML s)); [|reflexivity].
  destruct s; reflexivity.
Qed.

Lemma currentZoom_wheel_up (P : jsstring -> bool) (e : WheelEvent) (s : State) :
  wheel_ctrlKey e || wheel_metaKey e = true -> wheel_up e = true ->
  currentZoom (graphImage_onwheel P e s) = zoom_in (currentZoom s).
Proof.
  intros Hc Hup. unfold graphImage_onwheel. rewrite Hc.
  rewrite (wheel_up_delta e Hup), currentZoom_updateZoom.
  pose proof (wheel_up_not_down e Hup) as Hdown.
  unfold wheel_up in Hup. unfold wheel_down in Hdown. rewrite Hup, Hdown.
  unfold zoom_in. cbn [andb].
  destruct (num_lt (currentZoom s) maxZoom); [|reflexivity].
  apply currentZoom_set_currentZoom.
Qed.

Lemma currentZoom_wheel_down (P : jsstring -> bool) (e : WheelEvent) (s : State) :
  wheel_ctrlKey e || wheel_metaKey e = true -> wheel_down e = true ->
  currentZoom (graphImage_onwheel P e s) = zoom_out (currentZoom s).
Proof.
  intros Hc Hdown. unfold graphImage_onwheel. rewrite Hc.
  rewrite (wheel_down_delta e Hdown), currentZoom_updateZoom.
  assert (Hup : wheel_up e = false).
  { destruct (wheel_up e) eqn:E; [|reflexivity].
    apply wheel_up_not_down in E. congruence. }
  unfold wheel_up in Hup. unfold wheel_down in Hdown. rewrite Hup, Hdown.
  unfold zoom_out. cbn [andb].
  destruct (num_gt (currentZoom s) minZoom); [|reflexivity].
  apply currentZoom_set_currentZoom.
Qed.

(** C2, as amended.  With ctrl or cmd held, a wheel-up event (negative
    [deltaY]) over the image viewer zooms in and a wheel-down event
    (positive [deltaY]) zooms out.  Each moves [currentZoom] by one step:
    to min(zoom + 0.1, 3.0) when zooming in below 3.0, which is above the
    old level, and to max(zoom - 0.1, 0.5) when zooming out above 0.5,
    which is below it; at the bound the level stays.  This holds in every
    state the page can reach. *)
Theorem wheel_zoom_direction (P : jsstring -> bool) (page : Page)
    (evs : list Event) (e : WheelEvent) :
  P [] = false ->
  wheel_ctrlKey e || wheel_metaKey e = true ->
  let s := run_events P evs (DOMContentLoaded page) in
  let s' := step P (Wheel_graphImage e) s in
  (wheel_up e = true ->
   currentZoom s' =
     (if num_lt (currentZoom s) maxZoom
      then Math_min (num_add (currentZoom s) zoomStep) maxZoom
      else currentZoom s) /\
   num_lt (currentZoom s) (currentZoom s') = num_lt (currentZoom s) maxZoom /\
   num_le (currentZoom s') maxZoom = true) /\
  (wheel_down e = true ->
   currentZoom s' =
     (if num_gt (currentZoom s) minZoom
      then Math_max (num_sub (currentZoom s) zoomStep) minZoom
      else currentZoom s) /\
   num_lt (currentZoom s') (currentZoom s) = num_gt (currentZoom s) minZoom /\
   num_le minZoom (currentZoom s') = true).
Proof.
  intros HP Hc s s'.
  pose proof (zoom_inv_run_events P page evs HP) as [Hin _]. fold s in Hin.
  pose proof (zoom_value_ok_In _ Hin) as Hok. unfold zoom_value_ok in Hok.
  rewrite !andb_true_iff in Hok.
  destruct Hok as [[[[[[[[_ _] _] _] _] _] Hinc] Hdec] _].
  apply Bool.eqb_prop in Hinc. apply Bool.eqb_prop in Hdec.
  split; intros Hdir; subst s'; cbn [step].
  - rewrite (currentZoom_wheel_up P e s Hc Hdir).
    repeat split; [now symmetry|].
    apply zoom_value_bounds, zoom_in_closed, Hin.
  - rewrite (currentZoom_wheel_down P e s Hc Hdir).
    repeat split; [now symmetry|].
    apply zoom_value_bounds, zoom_out_closed, Hin.
Qed.

Lemma wheel_zoom_direction_witness :
  let up := ctrl_wheel (SFopp num_100) in
  let down := ctrl_wheel num_100 in
  let s := run_events sniff_img [] (DOMContentLoaded blank_page) in
  sniff_img [] = false /\
  wheel_ctrlKey up || wheel_metaKey up = true /\
  wheel_ctrlKey down || wheel_metaKey down = true /\
  wheel_up up = true /\
  wheel_down down = true /\
  currentZoom (step sniff_img (Wheel_graphImage up) s)
    = num_add num_1 zoomStep /\
  num_lt (currentZoom s)
         (currentZoom (step sniff_img (Wheel_graphImage up) s)) = true /\
  currentZoom (step sniff_img (Wheel_graphImage down) s)
    = num_sub num_1 zoomStep /\
  num_lt (currentZoom (step sniff_img (Wheel_graphImage down) s))
         (currentZoom s) = true.
Proof.
  cbv zeta. do 5 (split; [reflexivity|]).
  destruct (proj1 (wheel_zoom_direction sniff_img blank_page []
                     (ctrl_wheel (SFopp num_100)) eq_refl eq_refl) eq_refl)
    as (H1 & H2 & _).
  destruct (proj2 (wheel_zoom_direction sniff_img blank_page []
                     (ctrl_wheel num_100) eq_refl eq_refl) eq_refl)
    as (H3 & H4 & _).
  repeat split; assumption.
Defined.

(** C2, as stated, fails: on a freshly loaded page a ctrl + wheel-down
    event (positive [deltaY]) takes [currentZoom] from 1.0 down to 0.9,
    and a ctrl + wheel-up event takes it up to 1.1. *)
Lemma wheel_down_zooms_out :
  let s := DOMContentLoaded blank_page in
  let down := ctrl_wheel num_100 in
  let up := ctrl_wheel (SFopp num_100) in
  wheel_down down = true /\
  currentZoom (step sniff_img (Wheel_graphImage down) s)
    = num_sub num_1 zoomStep /\
  num_lt (currentZoom (step sniff_img (Wheel_graphImage down) s))
         (currentZoom s) = true /\
  wheel_up up = true /\
  num_lt (currentZoom s)
         (currentZoom (step sniff_img (Wheel_graphImage up) s)) = true.
Proof.
  cbv zeta. repeat apply conj; vm_compute; reflexivity.
Qed.

(** ** Zooming while the viewer holds no image *)

Lemma same_display_of_viewer (s s' : State) :
  same_viewer s s' -> same_display s s'.
Proof. unfold same_viewer, same_display. tauto. Qed.

Lemma same_display_trans (s1 s2 s3 : State) :
  same_display s1 s2 -> same_display s2 s3 -> same_display s1 s3.
Proof.
  unfold same_display. intros H1 H2.
  repeat split; etransitivity; try apply H2; apply H1.
Qed.

Lemma same_display_set_currentZoom (z : number) (s : State) :
  same_display s (set_currentZoom z s).
Proof. destruct s. unfold same_display. cbn. repeat split. Qed.

Lemma updateZoom_no_image (P : jsstring -> bool) (s : State) :
  P (graphContent_innerHTML s) = false -> updateZoom P s = s.
Proof. intros H. unfold updateZoom. now rewrite H. Qed.

Lemma no_image_set_currentZoom (P : jsstring -> bool) (z : number) (s : State) :
  P (graphContent_innerHTML s) = false ->
  updateZoom P (set_currentZoom z s) = set_currentZoom z s.
Proof.
  intros H. apply updateZoom_no_image. destruct s; exact H.
Qed.

Lemma no_image_click_zoomIn (P : jsstring -> bool) (s : State) :
  P (graphContent_innerHTML s) = false -> same_display s (click_zoomIn P s).
Proof.
  intros H. unfold click_zoomIn, zoomIn_onclick.
  destruct (zoomIn_disabled s); [apply same_display_of_viewer, same_viewer_refl|].
  destruct (num_lt _ _); [|apply same_display_of_viewer, same_viewer_refl].
  rewrite no_image_set_currentZoom by exact H.
  apply same_display_set_currentZoom.
Qed.

Lemma no_image_click_zoomOut (P : jsstring -> bool) (s : State) :
  P (graphContent_innerHTML s) = false -> same_display s (click_zoomOut P s).
Proof.
  intros H. unfold click_zoomOut, zoomOut_onclick.
  destruct (zoomOut_disabled s); [apply same_display_of_viewer, same_viewer_refl|].
  destruct (num_gt _ _); [|apply same_display_of_viewer, same_viewer_refl].
  rewrite no_image_set_currentZoom by exact H.
  apply same_display_set_currentZoom.
Qed.

Lemma no_image_onkeydown (P : jsstring -> bool) (e : KeyboardEvent) (s : State) :
  P (graphContent_innerHTML s) = false ->
  same_display s (document_onkeydown P e s).
Proof.
  intros H. unfold document_onkeydown.
  destruct (_ || _); [|apply same_display_of_viewer, same_viewer_refl].
  destruct (_ || _); [now apply no_image_click_zoomIn|].
  destruct (jsstring_eqb _ _); [now apply no_image_click_zoomOut|].
  apply same_display_of_viewer, same_viewer_refl.
Qed.

Lemma no_image_onwheel (P : jsstring -> bool) (e : WheelEvent) (s : State) :
  P (graphContent_innerHTML s) = false ->
  same_display s (graphImage_onwheel P e s).
Proof.
  intros H. unfold graphImage_onwheel.
  destruct (_ || _); [|apply same_display_of_viewer, same_viewer_refl].
  destruct (_ && _).
  - rewrite no_image_set_currentZoom by exact H.
    apply same_display_set_currentZoom.
  - destruct (_ && _).
    + rewrite no_image_set_currentZoom by exact H.
      apply same_display_set_currentZoom.
    + rewrite updateZoom_no_image by exact H.
      apply same_display_of_viewer, same_viewer_refl.
Qed.

(** C10.  While the graph content area holds no image element, a click
    on a zoom button, a key event or a wheel event leaves the zoom
    label, the disabled state of both zoom buttons and the viewer's
    content as they are.  The zoom level can change all the same: after
    one click on zoom-in on a freshly loaded page [currentZoom] is the
    binary64 sum of 1 and 0.1 while the label still reads "100%", not
    the "110%" that rounding [currentZoom * 100] gives. *)
Theorem zoom_without_image (P : jsstring -> bool) (s : State) (ev : Event) :
  P [] = false ->
  P (graphContent_innerHTML s) = false ->
  zoom_trigger ev = true ->
  (let s' := step P ev s in
   zoomLevel_textContent s' = zoomLevel_textContent s /\
   zoomIn_disabled s' = zoomIn_disabled s /\
   zoomOut_disabled s' = zoomOut_disabled s) /\
  (forall page,
   let s0 := DOMContentLoaded page in
   let s1 := step P Click_zoomIn s0 in
   P (graphContent_innerHTML s0) = false /\
   currentZoom s0 = num_1 /\
   currentZoom s1 = num_add num_1 zoomStep /\
   currentZoom s1 <> currentZoom s0 /\
   zoomLevel_textContent s1 = utf16 "100%" /\
   percent_text (currentZoom s1) = utf16 "110%" /\
   zoomLevel_textContent s1 <> percent_text (currentZoom s1)).
Proof.
  intros HP Himg Hev. split.
  - assert (H : same_display s (step P ev s)).
    { destruct ev; try discriminate Hev; cbn [step].
      - now apply no_image_click_zoomIn.
      - now apply no_image_click_zoomOut.
      - destruct in_userInput; [|now apply no_image_onkeydown].
        assert (Hg : same_viewer s (userInput_onkeydown e s)).
        { unfold userInput_onkeydown. destruct (_ && _);
            [apply same_viewer_generateGraph|apply same_viewer_refl]. }
        eapply same_display_trans; [apply same_display_of_viewer, Hg|].
        apply no_image_onkeydown.
        destruct Hg as (_ & -> & _). exact Himg.
      - now apply no_image_onwheel. }
    unfold same_display in H. cbv zeta. tauto.
  - intros page. cbv zeta.
    assert (H0 : P (graphContent_innerHTML (DOMContentLoaded page)) = false)
      by exact HP.
    cbn [step]. unfold click_zoomIn, zoomIn_onclick.
    change (zoomIn_disabled (DOMContentLoaded page)) with false.
    change (currentZoom (DOMContentLoaded page)) with num_1.
    change (num_lt num_1 maxZoom) with true. cbv iota.
    rewrite no_image_set_currentZoom by exact H0.
    rewrite currentZoom_set_currentZoom.
    change (Math_min (num_add num_1 zoomStep) maxZoom)
      with (num_add num_1 zoomStep).
    repeat apply conj; try reflexivity; try exact H0.
    + vm_compute. discriminate.
    + vm_compute. discriminate.
Qed.

Lemma zoom_without_image_witness :
  sniff_img [] = false /\
  sniff_img (graphContent_innerHTML (DOMContentLoaded blank_page)) = false /\
  zoom_trigger (Wheel_graphImage (ctrl_wheel (SFopp num_100))) = true /\
  let s := DOMContentLoaded blank_page in
  let s' := step sniff_img (Wheel_graphImage (ctrl_wheel (SFopp num_100))) s in
  zoomLevel_textContent s' = zoomLevel_textContent s /\
  zoomIn_disabled s' = zoomIn_disabled s /\
  zoomOut_disabled s' = zoomOut_disabled s.
Proof.
  split; [reflexivity|]. split; [reflexivity|]. split; [reflexivity|].
  exact (proj1 (zoom_without_image sniff_img (DOMContentLoaded blank_page)
                  (Wheel_graphImage (ctrl_wheel (SFopp num_100)))
                  eq_refl eq_refl eq_refl)).
Defined.

(** * Further properties of the script *)

(** ** Trimming *)

Lemma blank_first_visible (s : jsstring) :
  blank s = true <-> first_visible s = None.
Proof.
  unfold blank, first_visible. induction s as [|c s IH]; cbn; [tauto|].
  destruct (is_white_space c); cbn; [exact IH|]. split; discriminate.
Qed.

Lemma trim_blank (s : jsstring) : blank s = true -> trim s = [].
Proof.
  intros H. apply blank_first_visible in H.
  pose proof (trim_head s) as Ht. now rewrite H in Ht.
Qed.

Lemma trim_not_blank (s : jsstring) :
  blank s = false -> exists c t, trim s = c :: t.
Proof.
  intros H. pose proof (trim_head s) as Ht.
  destruct (first_visible s) as [c|] eqn:E.
  - destruct Ht as [t Ht]. eauto.
  - apply blank_first_visible in E. congruence.
Qed.

Lemma trimStart_visible (s : jsstring) :
  match trimStart s with
  | [] => True
  | c :: _ => is_white_space c = false
  end.
Proof.
  induction s as [|x s IH]; cbn; [exact I|].
  destruct (is_white_space x) eqn:Hx; [exact IH|exact Hx].
Qed.

Lemma last_rev_head (A : Type) (l : list A) (a d : A) :
  last (rev (a :: l)) d = a.
Proof. cbn. apply last_last. Qed.

(** A trimmed text neither starts nor ends with white space. *)
Lemma trim_ends_visible (s : jsstring) (c : code_unit) (t : jsstring) :
  trim s = c :: t ->
  is_white_space c = false /\ is_white_space (last (c :: t) c) = false.
Proof.
  intros H. split.
  - pose proof (trim_head s) as Hh. pose proof (trimStart_head s) as Hs.
    unfold trim in H. destruct (trimStart s) as [|x u] eqn:E.
    + discriminate H.
    + destruct Hs as [_ Hx]. rewrite trimEnd_cons in H by exact Hx.
      now inversion H; subst.
  - unfold trim, trimEnd in H.
    pose proof (trimStart_visible (rev (trimStart s))) as Hv.
    destruct (trimStart (rev (trimStart s))) as [|x u]; [discriminate H|].
    rewrite <- H. now rewrite last_rev_head.
Qed.

(** ** Submitting *)

Lemma generateGraph_inflight (s : State) (c : code_unit) (t : jsstring) :
  trim (userInput_value s) = c :: t ->
  inflight_generate (generateGraph s) =
  inflight_generate s ++ [mkGenerateRequest (c :: t) (isRepairMode s)].
Proof.
  intros Ht. unfold generateGraph. rewrite Ht. destruct s; reflexivity.
Qed.

(** X1.  The guard of [generateGraph]: when the input field holds
    nothing but white space (or nothing at all), the call changes
    nothing: no request is posted, no message is added, the send button
    and the loading indicator stay as they are.  The same holds for a
    click on the send button and for Enter in the input field. *)
Theorem generate_blank_is_noop (P : jsstring -> bool) (s : State) :
  blank (userInput_value s) = true ->
  generateGraph s = s /\
  step P Click_sendBtn s = s /\
  step P (KeyDown true enter_key) s = s.
Proof.
  intros Hb. assert (Hg : generateGraph s = s).
  { unfold generateGraph. now rewrite (trim_blank _ Hb). }
  repeat apply conj.
  - exact Hg.
  - cbn [step]. destruct (sendBtn_disabled s); [reflexivity|exact Hg].
  - cbn [step]. change (userInput_onkeydown enter_key s) with (generateGraph s).
    rewrite Hg. reflexivity.
Qed.

Lemma generate_blank_is_noop_witness :
  let s := set_userInput_value (utf16 "   ") (DOMContentLoaded blank_page) in
  blank (userInput_value s) = true /\
  generateGraph s = s /\
  step sniff_img Click_sendBtn s = s /\
  step sniff_img (KeyDown true enter_key) s = s.
Proof.
  cbv zeta. split; [reflexivity|].
  exact (generate_blank_is_noop sniff_img
           (set_userInput_value (utf16 "   ") (DOMContentLoaded blank_page))
           eq_refl).
Defined.

(** X2.  When the input field holds visible text, [generateGraph] posts
    exactly one request.  Its [user_input] is the trimmed field content:
    it is not empty and neither starts nor ends with white space; its
    [is_repair] is the repair flag at that moment.  The loading
    indicator is shown, the send button is disabled and relabelled;
    transcript, input field, viewer and zoom are untouched. *)
Theorem generate_posts_trimmed_input (s : State) :
  blank (userInput_value s) = false ->
  let s' := generateGraph s in
  exists c t,
    trim (userInput_value s) = c :: t /\
    is_white_space c = false /\
    is_white_space (last (c :: t) c) = false /\
    inflight_generate s' =
      inflight_generate s ++ [mkGenerateRequest (c :: t) (isRepairMode s)] /\
    loadingOverlay_hidden s' = false /\
    sendBtn_disabled s' = true /\
    sendBtn_innerHTML s' = label_generating /\
    chatMessages s' = chatMessages s /\
    userInput_value s' = userInput_value s /\
    same_viewer s s'.
Proof.
  intros Hb s'. destruct (trim_not_blank _ Hb) as (c & t & Ht).
  destruct (trim_ends_visible _ _ _ Ht) as [Hc Hl].
  exists c, t. subst s'. unfold generateGraph. rewrite Ht.
  repeat apply conj; try assumption; try reflexivity;
    destruct s; cbn; reflexivity.
Qed.

Lemma generate_posts_trimmed_input_witness :
  let s := set_userInput_value (utf16 "  draw a loop ")
             (DOMContentLoaded blank_page) in
  blank (userInput_value s) = false /\
  inflight_generate (generateGraph s) =
    [mkGenerateRequest (utf16 "draw a loop") false].
Proof.
  cbv zeta. split; [reflexivity|].
  destruct (generate_posts_trimmed_input
              (set_userInput_value (utf16 "  draw a loop ")
                 (DOMContentLoaded blank_page)) eq_refl)
    as (c & t & Ht & _ & _ & Hreq & _).
  rewrite Hreq. vm_compute in Ht. inversion Ht; subst. reflexivity.
Defined.

(** X3.  The disabled send button is no lock.  While it is disabled a
    click on it starts nothing, but Enter (without Shift) in the input
    field still runs [generateGraph] and, the field holding visible
    text, posts one more request; Shift+Enter posts none, and neither
    does Enter outside the input field. *)
Theorem enter_bypasses_disabled_button (P : jsstring -> bool)
    (e : KeyboardEvent) (s : State) :
  sendBtn_disabled s = true ->
  blank (userInput_value s) = false ->
  key e = utf16 "Enter" ->
  step P Click_sendBtn s = s /\
  (key_shiftKey e = false ->
   step P (KeyDown true e) s = generateGraph s /\
   length (inflight_generate (step P (KeyDown true e) s)) =
     S (length (inflight_generate s))) /\
  (key_shiftKey e = true -> step P (KeyDown true e) s = s) /\
  step P (KeyDown false e) s = s.
Proof.
  intros Hd Hb Hk.
  assert (Hdoc : forall s0, document_onkeydown P e s0 = s0).
  { intros s0. unfold document_onkeydown. rewrite Hk.
    destruct (_ || _); reflexivity. }
  split; [cbn [step]; now rewrite Hd|].
  split; [|split].
  - intros Hs.
    assert (Hstep : step P (KeyDown true e) s = generateGraph s).
    { cbn [step]. rewrite Hdoc. unfold userInput_onkeydown. now rewrite Hk, Hs. }
    split; [exact Hstep|]. rewrite Hstep.
    destruct (trim_not_blank _ Hb) as (c & t & Ht).
    rewrite (generateGraph_inflight s c t Ht), length_app. cbn. lia.
  - intros Hs. cbn [step]. rewrite Hdoc. unfold userInput_onkeydown.
    now rewrite Hk, Hs.
  - cbn [step]. apply Hdoc.
Qed.

Lemma enter_bypasses_disabled_button_witness :
  let s := run_events sniff_img
             [Edit_userInput (utf16 "draw a loop"); Click_sendBtn;
              Edit_userInput (utf16 "draw a tree")]
             (DOMContentLoaded blank_page) in
  sendBtn_disabled s = true /\
  blank (userInput_value s) = false /\
  key enter_key = utf16 "Enter" /\
  step sniff_img Click_sendBtn s = s /\
  length (inflight_generate (step sniff_img (KeyDown true enter_key) s)) = 2.
Proof.
  cbv zeta. do 3 (split; [reflexivity|]).
  destruct (enter_bypasses_disabled_button sniff_img enter_key
              (run_events sniff_img
                 [Edit_userInput (utf16 "draw a loop"); Click_sendBtn;
                  Edit_userInput (utf16 "draw a tree")]
                 (DOMContentLoaded blank_page))
              eq_refl eq_refl eq_refl) as (H1 & H2 & _).
  split; [exact H1|]. exact (proj2 (H2 eq_refl)).
Defined.

(** ** Responses to [/generate] *)

(** Rewrites a field read through one layer of an update that leaves the
    field alone. *)
Ltac peel f :=
  repeat match goal with
  | |- context [f (?g ?v ?s0)] =>
    let H := fresh in
    assert (H : f (g v s0) = f s0) by (destruct s0; reflexivity);
    rewrite H; clear H
  end.

(** What the [try] block leaves when it completes, the payload carrying
    no error text. *)
Lemma generateGraph_try_ok (P : jsstring -> bool) (input : jsstring)
    (err : option jsstring) (h : option (list ChatEntry))
    (b : option jsstring) (m : option Metrics) (s : State) :
  field_truthy err = false ->
  generateGraph_try P input (Resolved (mkGenerateData err h b m)) s =
  Normal
    (set_userInput_focused true
       (set_userInput_value []
          ((match m with
            | Some m0 => updateMetrics (Some m0)
            | None => fun s0 => s0
            end)
             ((match b with
               | Some ((_ :: _) as b0) => graphImage_set_innerHTML P (img_markup b0)
               | _ => fun s0 => s0
               end)
                ((match h with
                  | Some (e :: h0) =>
                    if jsstring_eqb (entry_type (last (e :: h0) e)) assistant
                    then addMessage (entry_content (last (e :: h0) e)) assistant
                    else fun s0 => s0
                  | _ => fun s0 => s0
                  end)
                   (addMessage input user s)))))).
Proof.
  intros He. destruct err as [[|c e]|]; try discriminate He; reflexivity.
Qed.

Lemma last_rev (A : Type) (l : list A) (d : A) :
  last l d = match rev l with a :: _ => a | [] => d end.
Proof.
  destruct (rev l) as [|a r] eqn:E.
  - apply (f_equal (@rev A)) in E. rewrite rev_involutive in E. now subst.
  - apply (f_equal (@rev A)) in E. rewrite rev_involutive in E. subst l.
    cbn. apply last_last.
Qed.

Lemma generateGraph_resume_ok_chat (P : jsstring -> bool)
    (input : jsstring) (err : option jsstring)
    (h : option (list ChatEntry)) (b : option jsstring)
    (m : option Metrics) (s : State) :
  field_truthy err = false ->
  chatMessages
    (generateGraph_resume P input (Resolved (mkGenerateData err h b m)) s) =
  chatMessages s ++
    user_message input ::
    match h with
    | Some h0 =>
      match rev h0 with
      | e :: _ =>
        if jsstring_eqb (entry_type e) (utf16 "assistant")
        then [assistant_message (entry_content e)]
        else []
      | [] => []
      end
    | None => []
    end.
Proof.
  intros He. unfold generateGraph_resume, try_catch_finally.
  rewrite (generateGraph_try_ok P input err h b m s He).
  peel chatMessages.
  assert (Hm : forall s0,
    chatMessages ((match m with
                   | Some m0 => updateMetrics (Some m0)
                   | None => fun s1 => s1
                   end) s0) = chatMessages s0).
  { intros s0. destruct m; [apply chat_updateMetrics|reflexivity]. }
  assert (Hb : forall s0,
    chatMessages ((match b with
                   | Some ((_ :: _) as b0) =>
                     graphImage_set_innerHTML P (img_markup b0)
                   | _ => fun s1 => s1
                   end) s0) = chatMessages s0).
  { intros s0. destruct b as [[|c b]|]; try reflexivity.
    apply chat_graphImage_set_innerHTML. }
  rewrite Hm, Hb.
  destruct h as [[|e h0]|].
  - now rewrite addMessage_user; destruct s.
  - rewrite (last_rev _ (e :: h0) e).
    destruct (rev (e :: h0)) as [|a r] eqn:E.
    + apply (f_equal (@length _)) in E. rewrite length_rev in E.
      discriminate E.
    + change (utf16 "assistant") with assistant.
      destruct (jsstring_eqb (entry_type a) assistant).
      * rewrite addMessage_assistant, addMessage_user.
        destruct s; cbn. now rewrite <- app_assoc.
      * now rewrite addMessage_user; destruct s.
  - now rewrite addMessage_user; destruct s.
Qed.

(** X4.  On a response without error text the transcript gains the
    user's input as a text node, then at most one more node: the content
    of the last entry of the returned history, formatted, when that
    entry is tagged [assistant]; earlier entries are never shown.  The
    input field is emptied, whatever it held by then, and focused. *)
Theorem generate_success_transcript (P : jsstring -> bool)
    (input : jsstring) (err : option jsstring)
    (h : option (list ChatEntry)) (b : option jsstring)
    (m : option Metrics) (s : State) :
  field_truthy err = false ->
  let s' :=
    generateGraph_resume P input (Resolved (mkGenerateData err h b m)) s in
  chatMessages s' =
    chatMessages s ++
      user_message input ::
      match h with
      | Some h0 =>
        match rev h0 with
        | e :: _ =>
          if jsstring_eqb (entry_type e) (utf16 "assistant")
          then [assistant_message (entry_content e)]
          else []
        | [] => []
        end
      | None => []
      end /\
  userInput_value s' = [] /\
  userInput_focused s' = true.
Proof.
  intros He s'. subst s'. split.
  - apply generateGraph_resume_ok_chat, He.
  - unfold generateGraph_resume, try_catch_finally.
    rewrite (generateGraph_try_ok P input err h b m s He). split.
    + peel userInput_value.
      match goal with |- userInput_value (set_userInput_value [] ?s0) = _ =>
        now destruct s0 end.
    + peel userInput_focused.
      match goal with
      | |- userInput_focused (set_userInput_focused true ?s0) = _ =>
        now destruct s0
      end.
Qed.

Lemma generate_success_transcript_witness :
  let h := [mkChatEntry (utf16 "assistant") (utf16 "old");
            mkChatEntry (utf16 "user") (utf16 "draw a loop");
            mkChatEntry (utf16 "assistant") (utf16 "• done")] in
  let s := generateGraph
             (set_userInput_value (utf16 "draw a loop")
                (DOMContentLoaded blank_page)) in
  let s' :=
    generateGraph_resume sniff_img (utf16 "draw a loop")
      (Resolved (mkGenerateData None (Some h) None None)) s in
  field_truthy None = false /\
  chatMessages s' =
    [user_message (utf16 "draw a loop"); assistant_message (utf16 "• done")] /\
  userInput_value s' = [].
Proof.
  cbv zeta. split; [reflexivity|].
  destruct (generate_success_transcript sniff_img (utf16 "draw a loop") None
              (Some [mkChatEntry (utf16 "assistant") (utf16 "old");
                     mkChatEntry (utf16 "user") (utf16 "draw a loop");
                     mkChatEntry (utf16 "assistant") (utf16 "• done")])
              None None
              (generateGraph
                 (set_userInput_value (utf16 "draw a loop")
                    (DOMContentLoaded blank_page)))
              eq_refl) as (H1 & H2 & _).
  split; [exact H1|exact H2].
Defined.

Lemma same_viewer_trans (s1 s2 s3 : State) :
  same_viewer s1 s2 -> same_viewer s2 s3 -> same_viewer s1 s3.
Proof.
  unfold same_viewer. intros (A1 & A2 & A3 & A4 & A5 & A6)
    (B1 & B2 & B3 & B4 & B5 & B6).
  repeat apply conj; congruence.
Qed.

(** The reply step of the [try] block leaves the viewer alone. *)
Lemma same_viewer_reply (input : jsstring) (h : option (list ChatEntry))
    (s : State) :
  same_viewer s
    ((match h with
      | Some (e :: h0) =>
        if jsstring_eqb (entry_type (last (e :: h0) e)) assistant
        then addMessage (entry_content (last (e :: h0) e)) assistant
        else fun s0 => s0
      | _ => fun s0 => s0
      end) (addMessage input user s)).
Proof.
  eapply same_viewer_trans; [apply (same_viewer_addMessage input user)|].
  destruct h as [[|e h0]|]; try apply same_viewer_refl.
  destruct (jsstring_eqb _ _);
    [apply same_viewer_addMessage|apply same_viewer_refl].
Qed.

(** The steps after the image step leave the viewer alone. *)
Lemma same_viewer_epilogue (m : option Metrics) (s : State) :
  same_viewer s
    (set_sendBtn_innerHTML label_generate
       (set_sendBtn_disabled false
          (toggleLoading false
             (set_userInput_focused true
                (set_userInput_value []
                   ((match m with
                     | Some m0 => updateMetrics (Some m0)
                     | None => fun s0 => s0
                     end) s)))))).
Proof.
  eapply same_viewer_trans; [|apply same_viewer_finally].
  eapply same_viewer_trans; [|apply same_viewer_set_userInput_focused].
  eapply same_viewer_trans; [|apply same_viewer_set_userInput_value].
  destruct m; [apply same_viewer_updateMetrics|apply same_viewer_refl].
Qed.

(** The viewer after its setter took the image branch. *)
Lemma graphImage_set_image (P : jsstring -> bool) (content : jsstring)
    (s : State) :
  includes content (utf16 "<img") = true ->
  let s' := graphImage_set_innerHTML P content s in
  graphContent_innerHTML s' = content /\
  currentZoom s' = num_1 /\
  (if P content then
     image_transform s' = Some num_1 /\
     zoomLevel_textContent s' = utf16 "100%" /\
     zoomIn_disabled s' = false /\
     zoomOut_disabled s' = false
   else
     image_transform s' = None /\
     zoomLevel_textContent s' = zoomLevel_textContent s /\
     zoomIn_disabled s' = zoomIn_disabled s /\
     zoomOut_disabled s' = zoomOut_disabled s).
Proof.
  intros Hinc. cbv zeta. unfold graphImage_set_innerHTML, updateZoom.
  rewrite Hinc. destruct s; cbn. destruct (P content) eqn:HP; cbn;
    rewrite ?HP; repeat apply conj; reflexivity.
Qed.

(** X5.  A response without error text that carries an image replaces
    the viewer's content by the image markup and starts it at zoom 1.0,
    whatever the zoom was: where the markup gave an image element the
    element is scaled by 1, the label reads "100%" and both zoom buttons
    are enabled.  A response without image (absent or empty
    [cfg_image]) leaves viewer, zoom level, label and buttons exactly as
    they were, so the graph shown before stays. *)
Theorem generate_success_viewer (P : jsstring -> bool)
    (input : jsstring) (err : option jsstring)
    (h : option (list ChatEntry)) (b : option jsstring)
    (m : option Metrics) (s : State) :
  field_truthy err = false ->
  let s' :=
    generateGraph_resume P input (Resolved (mkGenerateData err h b m)) s in
  if field_truthy b then
    exists b0,
      b = Some b0 /\
      graphContent_innerHTML s' = img_markup b0 /\
      currentZoom s' = num_1 /\
      (if P (img_markup b0) then
         image_transform s' = Some num_1 /\
         zoomLevel_textContent s' = utf16 "100%" /\
         zoomIn_disabled s' = false /\
         zoomOut_disabled s' = false
       else
         zoomLevel_textContent s' = zoomLevel_textContent s /\
         zoomIn_disabled s' = zoomIn_disabled s /\
         zoomOut_disabled s' = zoomOut_disabled s)
  else same_viewer s s'.
Proof.
  intros He s'. subst s'. unfold generateGraph_resume, try_catch_finally.
  rewrite (generateGraph_try_ok P input err h b m s He).
  pose proof (same_viewer_reply input h s) as Hpre.
  set (s0 := (match h with
              | Some (e :: h0) =>
                if jsstring_eqb (entry_type (last (e :: h0) e)) assistant
                then addMessage (entry_content (last (e :: h0) e)) assistant
                else fun s0 => s0
              | _ => fun s0 => s0
              end) (addMessage input user s)) in *.
  destruct b as [[|c b]|]; cbn [field_truthy].
  - eapply same_viewer_trans; [exact Hpre|apply same_viewer_epilogue].
  - exists (c :: b). split; [reflexivity|].
    pose proof (same_viewer_epilogue m
                  (graphImage_set_innerHTML P (img_markup (c :: b)) s0))
      as (E1 & E2 & E3 & E4 & E5 & E6).
    rewrite E1, E2, E3, E4, E5, E6.
    destruct (graphImage_set_image P (img_markup (c :: b)) s0
                (img_markup_includes (c :: b))) as (G1 & G2 & G3).
    split; [exact G1|]. split; [exact G2|].
    destruct Hpre as (_ & _ & _ & V4 & V5 & V6).
    destruct (P (img_markup (c :: b))); [exact G3|].
    destruct G3 as (_ & G4 & G5 & G6).
    repeat apply conj; congruence.
  - eapply same_viewer_trans; [exact Hpre|apply same_viewer_epilogue].
Qed.

Lemma generate_success_viewer_witness :
  let s := run_events sniff_img
             [Click_zoomIn; Edit_userInput (utf16 "draw a loop"); Click_sendBtn]
             (DOMContentLoaded blank_page) in
  let s' :=
    generateGraph_resume sniff_img (utf16 "draw a loop")
      (Resolved (mkGenerateData None None (Some (utf16 "iVBORw0KGgo=")) None))
      s in
  field_truthy None = false /\
  currentZoom s = num_add num_1 zoomStep /\
  currentZoom s' = num_1 /\
  zoomLevel_textContent s' = utf16 "100%".
Proof.
  cbv zeta. split; [reflexivity|]. split; [reflexivity|].
  destruct (generate_success_viewer sniff_img (utf16 "draw a loop") None None
              (Some (utf16 "iVBORw0KGgo=")) None
              (run_events sniff_img
                 [Click_zoomIn; Edit_userInput (utf16 "draw a loop");
                  Click_sendBtn]
                 (DOMContentLoaded blank_page))
              eq_refl) as (b0 & Hb & _ & Hz & Hl).
  inversion Hb; subst b0. split; [exact Hz|]. exact (proj1 (proj2 Hl)).
Defined.

(** ** Metrics *)

Lemma digits_of_uint_inj (d d' : Decimal.uint) :
  digits_of_uint d = digits_of_uint d' -> d = d'.
Proof.
  revert d'. induction d; destruct d'; cbn; intros H;
    try discriminate H; try reflexivity;
    inversion H; f_equal; auto.
Qed.

Lemma digits_of_uint_head (d : Decimal.uint) :
  match digits_of_uint d with
  | [] => d = Decimal.Nil
  | c :: _ => (48 <= c <= 57)%N
  end.
Proof. destruct d; cbn; try reflexivity; lia. Qed.

(** The decimal text of an integer determines the integer. *)
Lemma Z_toString_inj (n n' : Z) : Z_toString n = Z_toString n' -> n = n'.
Proof.
  assert (Hzero : forall p, digits_of_uint (Pos.to_uint p) <> [48%N]).
  { intros p H.
    change [48%N] with (digits_of_uint (Decimal.D0 Decimal.Nil)) in H.
    apply digits_of_uint_inj in H. now apply (Unsigned.to_uint_nonzero p). }
  assert (Hminus : forall p l, digits_of_uint (Pos.to_uint p) <> 45%N :: l).
  { intros p l H. pose proof (digits_of_uint_head (Pos.to_uint p)) as Hh.
    rewrite H in Hh. lia. }
  unfold Z_toString. change (utf16 "0") with [48%N].
  change (utf16 "-") with [45%N].
  destruct n as [|p|p], n' as [|p'|p']; cbn [app]; intros H;
    try reflexivity; try discriminate H.
  - symmetry in H. now apply Hzero in H.
  - now apply Hzero in H.
  - apply digits_of_uint_inj, Unsigned.to_uint_inj in H. now subst.
  - now apply Hminus in H.
  - symmetry in H. now apply Hminus in H.
  - inversion H as [H1].
    apply digits_of_uint_inj, Unsigned.to_uint_inj in H1. now subst.
Qed.






(** ** Failures and the [finally] block *)

Lemma generateGraph_resume_rejected (P : jsstring -> bool)
    (input message : jsstring) (s : State) :
  generateGraph_resume P input (Rejected message) s =
  set_sendBtn_innerHTML label_generate
    (set_sendBtn_disabled false
       (toggleLoading false
          (addMessage (utf16 "• Error: " ++ message) assistant s))).
Proof. reflexivity. Qed.

(** X7.  A transport or parse failure is surfaced exactly as a
    server-reported error with the same text: the two responses leave
    the same state, whatever else the error payload carries.  After a
    failure the transcript holds one more node, the assistant message
    "• Error: " followed by the failure's text (which may be empty);
    viewer, zoom, metrics and input field are untouched. *)
Theorem generate_failure_surfacing (P : jsstring -> bool)
    (input message : jsstring) (s : State) :
  let s' := generateGraph_resume P input (Rejected message) s in
  chatMessages s' =
    chatMessages s ++ [assistant_message (utf16 "• Error: " ++ message)] /\
  same_viewer s s' /\
  metricsDisplay s' = metricsDisplay s /\
  userInput_value s' = userInput_value s /\
  (forall c t h b m,
     generateGraph_resume P input (Rejected (c :: t)) s =
     generateGraph_resume P input
       (Resolved (mkGenerateData (Some (c :: t)) h b m)) s).
Proof.
  cbv zeta. rewrite generateGraph_resume_rejected, addMessage_assistant.
  repeat apply conj; try (destruct s; reflexivity).
Qed.

Lemma generateGraph_resume_chat (P : jsstring -> bool) (input : jsstring)
    (r : Fetched GenerateData) (s : State) :
  exists l,
    chatMessages (generateGraph_resume P input r s) = chatMessages s ++ l /\
    1 <= length l <= 2.
Proof.
  destruct r as [[err h b m]|message].
  - destruct (field_truthy err) eqn:He.
    + destruct err as [[|c e]|]; try discriminate He.
      rewrite generateGraph_resume_error by discriminate.
      rewrite addMessage_assistant. eexists. split.
      * destruct s; cbn. reflexivity.
      * cbn. lia.
    + rewrite (generateGraph_resume_ok_chat P input err h b m s He).
      eexists. split; [reflexivity|].
      destruct h as [h0|]; [|cbn; lia].
      destruct (rev h0) as [|e r]; [cbn; lia|].
      destruct (jsstring_eqb _ _); cbn; lia.
  - rewrite generateGraph_resume_rejected, addMessage_assistant.
    eexists. split.
    + destruct s; cbn. reflexivity.
    + cbn. lia.
Qed.

(** X8.  Whatever the response to [/generate] (a payload of any
    content, or a failure), the flow ends with the loading indicator
    hidden, the send button enabled and labelled "Generate"; it keeps
    every node of the transcript and adds one or two: no response passes
    without a trace in the chat. *)
Theorem generate_always_settles (P : jsstring -> bool) (input : jsstring)
    (r : Fetched GenerateData) (s : State) :
  let s' := generateGraph_resume P input r s in
  loadingOverlay_hidden s' = true /\
  sendBtn_disabled s' = false /\
  sendBtn_innerHTML s' = label_generate /\
  exists l,
    chatMessages s' = chatMessages s ++ l /\ 1 <= length l <= 2.
Proof.
  cbv zeta. split; [|split; [|split]];
    try apply generateGraph_resume_chat;
    unfold generateGraph_resume, try_catch_finally;
    destruct (generateGraph_try P input r s) as [s0|m0 s0].
  - now destruct s0.
  - now destruct (addMessage _ assistant s0).
  - now destruct s0.
  - now destruct (addMessage _ assistant s0).
  - now destruct s0.
  - now destruct (addMessage _ assistant s0).
Qed.

(** ** Clearing *)

Lemma jsstring_eqb_neq (a b : jsstring) : a <> b -> jsstring_eqb a b = false.
Proof.
  intros H. unfold jsstring_eqb. now destruct (list_eq_dec N.eq_dec a b).
Qed.

(** X9.  [clearChat] acts on the exact status text "success" only: a
    payload with any other status, and a failed request, leave the page
    exactly as it was: transcript, viewer, input, metrics and repair
    mode.  This holds in both revisions of the script. *)
Theorem clear_failure_is_noop (P : jsstring -> bool) (r : Fetched ClearData)
    (s : State) :
  match r with
  | Resolved data => status data <> utf16 "success"
  | Rejected _ => True
  end ->
  clearChat_resume P r s = s /\ Part000.clearChat_resume r s = s.
Proof.
  intros H. destruct r as [data|message]; [|split; reflexivity].
  unfold clearChat_resume, Part000.clearChat_resume.
  rewrite (jsstring_eqb_neq _ _ H). split; reflexivity.
Qed.

Lemma clear_failure_is_noop_witness :
  let s := run_events sniff_img
             [Click_repairBtn; Edit_userInput (utf16 "draw a loop")]
             (DOMContentLoaded blank_page) in
  status (mkClearData (utf16 "Success")) <> utf16 "success" /\
  clearChat_resume sniff_img (Resolved (mkClearData (utf16 "Success"))) s = s /\
  Part000.clearChat_resume (Resolved (mkClearData (utf16 "Success"))) s = s.
Proof.
  cbv zeta. split; [discriminate|].
  exact (clear_failure_is_noop sniff_img
           (Resolved (mkClearData (utf16 "Success")))
           (run_events sniff_img
              [Click_repairBtn; Edit_userInput (utf16 "draw a loop")]
              (DOMContentLoaded blank_page))
           ltac:(discriminate)).
Defined.


(** X11.  In the earlier revision [initializeUI] also seeds the
    transcript: it adds the welcome message exactly when the transcript
    is empty, so afterwards the transcript is never empty, nothing that
    was there is lost, and running it again changes nothing.  In
    script.js [initializeUI] never touches the transcript. *)
Theorem initializeUI_seeds_welcome (s : State) :
  chatMessages (Part000.initializeUI s) <> [] /\
  (exists l,
     chatMessages (Part000.initializeUI s) = chatMessages s ++ l /\
     (l = [] \/ l = [assistant_message WELCOME_MESSAGE]) /\
     (l = [] <-> chatMessages s <> [])) /\
  Part000.initializeUI (Part000.initializeUI s) = Part000.initializeUI s /\
  chatMessages (initializeUI s) = chatMessages s.
Proof.
  destruct s as [? ? chat ? ? ? ? ? ? ? ? ? ? ? ? ? ? ?].
  destruct chat as [|d chat].
  - repeat apply conj; try (vm_compute; reflexivity).
    + vm_compute. discriminate.
    + exists [assistant_message WELCOME_MESSAGE].
      repeat apply conj; try (vm_compute; reflexivity).
      * now right.
      * discriminate.
      * intros H. now elim H.
  - repeat apply conj; try reflexivity.
    + discriminate.
    + exists []. cbn. rewrite app_nil_r.
      repeat apply conj; try reflexivity.
      * now left.
      * discriminate.
Qed.

(** ** Invariants of the event loop

    A property of the page that every elementary update of the script
    keeps is kept by every event. *)

Section StepInvariant.

Variable P : jsstring -> bool.
Variable I : State -> Prop.

Hypothesis I_zoom : forall z s, I s -> I (updateZoom P (set_currentZoom z s)).
Hypothesis I_updateZoom : forall s, I s -> I (updateZoom P s).
Hypothesis I_image :
  forall c b s, I s -> I (graphImage_set_innerHTML P (img_markup (c :: b)) s).
Hypothesis I_no_image : forall s, I s -> I (graphImage_set_innerHTML P [] s).
Hypothesis I_user : forall c s, I s -> I (addMessage c user s).
Hypothesis I_assistant : forall c s, I s -> I (addMessage c assistant s).
Hypothesis I_metrics : forall m s, I s -> I (updateMetrics m s).
Hypothesis I_value : forall v s, I s -> I (set_userInput_value v s).
Hypothesis I_focus : forall v s, I s -> I (set_userInput_focused v s).
Hypothesis I_finally :
  forall s, I s ->
    I (set_sendBtn_innerHTML label_generate
         (set_sendBtn_disabled false (toggleLoading false s))).
Hypothesis I_sent : forall l s, I s -> I (set_inflight_generate l s).

Lemma resume_keeps (input : jsstring) (r : Fetched GenerateData) (s : State) :
  I s -> I (generateGraph_resume P input r s).
Proof.
  unfold generateGraph_resume. apply (keeps_try_catch_finally I).
  - destruct r as [data|message]; [|apply (keeps_throw I)].
    cbn [generateGraph_try]. repeat apply (keeps_andThen I).
    + destruct (error data) as [[|? ?]|];
        [|apply (keeps_throw I)|]; apply (keeps_run I); auto.
    + apply (keeps_run I). auto.
    + apply (keeps_run I). intros s0 H0.
      destruct (chat_history data) as [[|e h]|]; auto.
      destruct (jsstring_eqb _ _); auto.
    + apply (keeps_run I). intros s0 H0.
      destruct (cfg_image data) as [[|c b]|]; auto.
    + apply (keeps_run I). intros s0 H0. destruct (metrics data); auto.
    + apply (keeps_run I). auto.
    + apply (keeps_run I). auto.
  - intros message s0. apply I_assistant.
  - exact I_finally.
Qed.

Lemma response_keeps (i : nat) (r : Fetched GenerateData) (s : State) :
  I s -> I (step P (Response_generate i r) s).
Proof.
  intros H. cbn [step]. destruct (nth_error _ i); [|exact H].
  apply resume_keeps, I_sent, H.
Qed.

Hypothesis I_response :
  forall i r s, I s -> I (step P (Response_generate i r) s).
Hypothesis I_repair : forall s, I s -> I (repairBtn_onclick s).
Hypothesis I_generate : forall s, I s -> I (generateGraph s).
Hypothesis I_cleared : forall n s, I s -> I (set_inflight_clear n s).
Hypothesis I_wiped : forall s, I s -> I (set_chatMessages [] s).
Hypothesis I_initializeUI : forall s, I s -> I (initializeUI s).

Lemma step_keeps (ev : Event) (s : State) : I s -> I (step P ev s).
Proof.
  assert (Hin : forall s0, I s0 -> I (click_zoomIn P s0)).
  { intros s0 H0. unfold click_zoomIn, zoomIn_onclick.
    destruct (zoomIn_disabled s0); [exact H0|].
    destruct (num_lt _ _); auto. }
  assert (Hout : forall s0, I s0 -> I (click_zoomOut P s0)).
  { intros s0 H0. unfold click_zoomOut, zoomOut_onclick.
    destruct (zoomOut_disabled s0); [exact H0|].
    destruct (num_gt _ _); auto. }
  intros H. destruct ev; try (now apply I_response); cbn [step]; auto.
  - destruct (sendBtn_disabled s); auto.
  - unfold clearChat. auto.
  - assert (H1 : I (if in_userInput then userInput_onkeydown e s else s)).
    { destruct in_userInput; [|exact H]. unfold userInput_onkeydown.
      destruct (_ && _); auto. }
    revert H1. generalize (if in_userInput then userInput_onkeydown e s else s).
    intros s1 H1. unfold document_onkeydown.
    destruct (_ || _); [|exact H1].
    destruct (_ || _); [auto|]. destruct (jsstring_eqb _ _); auto.
  - unfold graphImage_onwheel. destruct (_ || _); [|exact H].
    destruct (_ && _); [auto|]. destruct (_ && _); auto.
  - destruct (inflight_clear s) as [|n]; [exact H|].
    unfold clearChat_resume. destruct r as [data|message]; [|auto].
    destruct (jsstring_eqb _ _); auto 10.
Qed.

End StepInvariant.

Lemma run_events_keeps (P : jsstring -> bool) (I : State -> Prop)
    (evs : list Event) (s : State) :
  (forall ev s0, I s0 -> I (step P ev s0)) -> I s -> I (run_events P evs s).
Proof.
  intros Hstep. revert s. induction evs as [|ev evs IH]; intros s H; [exact H|].
  cbn. apply IH, Hstep, H.
Qed.

(** Discharges an elementary update that only reads or writes fields the
    property does not depend on, after case analysis on its tests. *)
Ltac elementary :=
  intros;
  unfold graphImage_set_innerHTML, graphContent_set_innerHTML, updateZoom,
    initializeUI, addMessage, updateMetrics, toggleLoading,
    repairBtn_onclick, generateGraph in *;
  repeat match goal with s : State |- _ => destruct s end;
  cbn in *;
  repeat (match goal with
          | |- context [if ?c then _ else _] => destruct c
          | |- context [match trim ?v with _ => _ end] => destruct (trim v)
          | |- context [match ?m with Some _ => _ | None => _ end] =>
            destruct m
          end; cbn in *);
  auto.

Lemma repair_synced_step (P : jsstring -> bool) (ev : Event) (s : State) :
  repair_synced s -> repair_synced (step P ev s).
Proof.
  apply (step_keeps P repair_synced); unfold repair_synced;
    try (intros i r s0 H0; apply (response_keeps P repair_synced);
         unfold repair_synced);
    try solve [elementary].
  elementary. now f_equal.
Qed.

(** X12.  After every sequence of events from page load the repair
    button carries its active class exactly when repair mode is on:
    the toggle flips both, and page load and a successful clear reset
    both. *)
Theorem repair_class_tells_flag (P : jsstring -> bool) (page : Page)
    (evs : list Event) :
  let s := run_events P evs (DOMContentLoaded page) in
  repairBtn_active s = isRepairMode s.
Proof.
  cbv zeta. change (repair_synced (run_events P evs (DOMContentLoaded page))).
  assert (H0 : repair_synced (DOMContentLoaded page)) by reflexivity.
  exact (run_events_keeps P repair_synced evs _ (repair_synced_step P) H0).
Qed.

Lemma generateGraph_resume_settled (P : jsstring -> bool) (input : jsstring)
    (r : Fetched GenerateData) (s : State) :
  loadingOverlay_hidden (generateGraph_resume P input r s) = true /\
  sendBtn_disabled (generateGraph_resume P input r s) = false.
Proof.
  unfold generateGraph_resume, try_catch_finally.
  destruct (generateGraph_try P input r s) as [s0|m0 s0].
  - now destruct s0.
  - now destruct (addMessage _ assistant s0).
Qed.

Lemma loading_synced_step (P : jsstring -> bool) (ev : Event) (s : State) :
  loading_synced s -> loading_synced (step P ev s).
Proof.
  apply (step_keeps P loading_synced); unfold loading_synced;
    try solve [elementary].
  - intros i r s0 H0. cbn [step]. destruct (nth_error _ i); [|exact H0].
    destruct (generateGraph_resume_settled P (user_input g) r
                (set_inflight_generate
                   (remove_nth i (inflight_generate s0)) s0)) as [Hh Hd].
    rewrite Hh, Hd. split; [reflexivity|discriminate].
  - elementary. split; [reflexivity|]. intros _.
    now destruct inflight_generate0.
Qed.

(** X13.  On a page that loads with the send button enabled and the
    loading indicator hidden, after every sequence of events the send
    button is disabled exactly while the loading indicator is shown,
    and whenever it is, a [generateGraph] call is still waiting for its
    response. *)
Theorem button_disabled_while_loading (P : jsstring -> bool) (page : Page)
    (evs : list Event) :
  html_sendBtn_disabled page = false ->
  html_loadingOverlay_hidden page = true ->
  let s := run_events P evs (DOMContentLoaded page) in
  sendBtn_disabled s = negb (loadingOverlay_hidden s) /\
  (sendBtn_disabled s = true -> inflight_generate s <> []).
Proof.
  intros Hd Hh. cbv zeta.
  change (loading_synced (run_events P evs (DOMContentLoaded page))).
  assert (H0 : loading_synced (DOMContentLoaded page)).
  { unfold loading_synced. cbn. rewrite Hd, Hh. split; [reflexivity|].
    discriminate. }
  exact (run_events_keeps P loading_synced evs _ (loading_synced_step P) H0).
Qed.

Lemma button_disabled_while_loading_witness :
  let s := run_events sniff_img
             [Edit_userInput (utf16 "draw a loop"); Click_sendBtn]
             (DOMContentLoaded blank_page) in
  html_sendBtn_disabled blank_page = false /\
  html_loadingOverlay_hidden blank_page = true /\
  sendBtn_disabled s = true /\
  loadingOverlay_hidden s = false /\
  inflight_generate s <> [].
Proof.
  cbv zeta. split; [reflexivity|]. split; [reflexivity|].
  destruct (button_disabled_while_loading sniff_img blank_page
              [Edit_userInput (utf16 "draw a loop"); Click_sendBtn]
              eq_refl eq_refl) as [H1 H2].
  split; [reflexivity|]. split; [reflexivity|]. apply H2. reflexivity.
Defined.

Lemma viewer_content_ok_step (P : jsstring -> bool) (ev : Event) (s : State) :
  viewer_content_ok s -> viewer_content_ok (step P ev s).
Proof.
  apply (step_keeps P viewer_content_ok); unfold viewer_content_ok;
    try (intros i r s0 H0; apply (response_keeps P viewer_content_ok);
         unfold viewer_content_ok);
    try solve [elementary].
  intros c b s1 _. right. exists c, b.
  unfold graphImage_set_innerHTML. rewrite img_markup_includes.
  unfold updateZoom. destruct s1; cbn. destruct (P _); reflexivity.
Qed.

(** X14.  After every sequence of events from page load the viewer
    holds either nothing or the image markup built from a non-empty
    payload: the script writes nothing else into it, and an image once
    shown is only ever replaced by another image or wiped by a clear. *)
Theorem viewer_holds_nothing_or_image (P : jsstring -> bool) (page : Page)
    (evs : list Event) :
  let s := run_events P evs (DOMContentLoaded page) in
  graphContent_innerHTML s = [] \/
  exists c b, graphContent_innerHTML s = img_markup (c :: b).
Proof.
  cbv zeta. change (viewer_content_ok (run_events P evs (DOMContentLoaded page))).
  assert (H0 : viewer_content_ok (DOMContentLoaded page)) by (now left).
  exact (run_events_keeps P viewer_content_ok evs _ (viewer_content_ok_step P) H0).
Qed.



(** ** The zoom label *)

Lemma zoom_labels_ok : forallb zoom_label_ok zoom_values = true.
Proof. vm_compute. reflexivity. Qed.

Lemma zoom_label_ok_In (z : number) :
  In z zoom_values ->
  (percent_of z mod 10 = 0)%Z /\
  percent_of (zoom_in z) = Z.min (percent_of z + 10) 300 /\
  percent_of (zoom_out z) = Z.max (percent_of z - 10) 50 /\
  (percent_of z = 300%Z <-> z = maxZoom) /\
  iterate 25 zoom_in z = maxZoom /\
  iterate 25 zoom_out z = minZoom.
Proof.
  intros H. pose proof zoom_labels_ok as Hall.
  rewrite forallb_forall in Hall. specialize (Hall z H).
  unfold zoom_label_ok in Hall. rewrite !andb_true_iff in Hall.
  destruct Hall as (((((H1 & H2) & H3) & H4) & H5) & H6).
  apply Z.eqb_eq in H1, H2, H3. apply num_eqb_eq in H5, H6.
  apply Bool.eqb_prop in H4.
  repeat apply conj; try assumption.
  - intros E. apply num_eqb_eq. rewrite <- H4. now apply Z.eqb_eq.
  - intros E. apply Z.eqb_eq. rewrite H4. now apply num_eqb_eq.
Qed.

Lemma percent_text_of (z : number) :
  In z zoom_values -> percent_text z = Z_toString (percent_of z) ++ utf16 "%".
Proof.
  intros H. destruct (zoom_percent_small z H) as (n & Hn & _).
  unfold percent_text, percent_of. now rewrite Hn.
Qed.

Lemma percent_of_range (z : number) :
  In z zoom_values -> (50 <= percent_of z <= 300)%Z.
Proof.
  intros H. destruct (zoom_percent_small z H) as (n & Hn & Hr).
  unfold percent_of. now rewrite Hn.
Qed.

Lemma label_ok_updateZoom (P : jsstring -> bool) (s : State) :
  label_ok s -> label_ok (updateZoom P s).
Proof.
  intros [Hz Hl]. unfold updateZoom.
  destruct (P _); [|now split]. destruct s; cbn in *.
  split; [exact Hz|]. exists currentZoom0. now split.
Qed.

Lemma label_ok_set_currentZoom (z : number) (s : State) :
  In z zoom_values -> label_ok s -> label_ok (set_currentZoom z s).
Proof. intros Hz [_ Hl]. destruct s; cbn in *. now split. Qed.

Lemma label_ok_step (P : jsstring -> bool) (ev : Event) (s : State) :
  label_ok s -> label_ok (step P ev s).
Proof.
  assert (Hin : forall s0, label_ok s0 -> label_ok (zoomIn_onclick P s0)).
  { intros s0 H0. unfold zoomIn_onclick.
    pose proof (zoom_in_closed _ (proj1 H0)) as Hc. unfold zoom_in in Hc.
    destruct (num_lt _ _); [|exact H0].
    now apply label_ok_updateZoom, label_ok_set_currentZoom. }
  assert (Hout : forall s0, label_ok s0 -> label_ok (zoomOut_onclick P s0)).
  { intros s0 H0. unfold zoomOut_onclick.
    pose proof (zoom_out_closed _ (proj1 H0)) as Hc. unfold zoom_out in Hc.
    destruct (num_gt _ _); [|exact H0].
    now apply label_ok_updateZoom, label_ok_set_currentZoom. }
  assert (Hframe : forall s0 s1, same_viewer s0 s1 -> label_ok s0 -> label_ok s1).
  { unfold same_viewer, label_ok. intros s0 s1 (-> & _ & _ & -> & _). tauto. }
  assert (Himg : forall c s0, label_ok s0 ->
                              label_ok (graphImage_set_innerHTML P c s0)).
  { intros c s0 H0.
    assert (Hc : label_ok (graphContent_set_innerHTML c s0))
      by (destruct s0; exact H0).
    unfold graphImage_set_innerHTML. destruct (includes c _); [|exact Hc].
    apply label_ok_updateZoom.
    exact (label_ok_set_currentZoom _ _ one_in_zoom_values Hc). }
  intros H. destruct ev; cbn [step].
  - unfold click_zoomIn. destruct (zoomIn_disabled s); auto.
  - unfold click_zoomOut. destruct (zoomOut_disabled s); auto.
  - eapply Hframe; [apply same_viewer_repairBtn_onclick|exact H].
  - destruct (sendBtn_disabled s); [exact H|].
    eapply Hframe; [apply same_viewer_generateGraph|exact H].
  - eapply Hframe; [apply same_viewer_set_inflight_clear|exact H].
  - assert (H1 : label_ok (if in_userInput then userInput_onkeydown e s else s)).
    { destruct in_userInput; [|exact H]. unfold userInput_onkeydown.
      destruct (_ && _); [|exact H].
      eapply Hframe; [apply same_viewer_generateGraph|exact H]. }
    revert H1. generalize (if in_userInput then userInput_onkeydown e s else s).
    intros s1 H1. unfold document_onkeydown, click_zoomIn, click_zoomOut.
    destruct (_ || _); [|exact H1].
    destruct (_ || _); [destruct (zoomIn_disabled s1); auto|].
    destruct (jsstring_eqb _ _); [destruct (zoomOut_disabled s1); auto|exact H1].
  - unfold graphImage_onwheel. destruct (_ || _); [|exact H].
    apply label_ok_updateZoom.
    pose proof (zoom_in_closed _ (proj1 H)) as Hci. unfold zoom_in in Hci.
    pose proof (zoom_out_closed _ (proj1 H)) as Hco. unfold zoom_out in Hco.
    destruct (num_lt _ num_0); cbn [andb].
    + destruct (num_lt (currentZoom s) maxZoom).
      * now apply label_ok_set_currentZoom.
      * destruct (num_gt _ num_0); cbn [andb]; [|exact H].
        destruct (num_gt (currentZoom s) minZoom); [|exact H].
        now apply label_ok_set_currentZoom.
    + destruct (num_gt _ num_0); cbn [andb]; [|exact H].
      destruct (num_gt (currentZoom s) minZoom); [|exact H].
      now apply label_ok_set_currentZoom.
  - eapply Hframe; [apply same_viewer_set_userInput_value|exact H].
  - eapply Hframe; [apply same_viewer_set_userInput_focused|exact H].
  - apply (response_keeps P label_ok); auto.
    + intros c s0. apply Hframe, same_viewer_addMessage.
    + intros c s0. apply Hframe, same_viewer_addMessage.
    + intros m s0. apply Hframe, same_viewer_updateMetrics.
    + intros v s0. apply Hframe, same_viewer_set_userInput_value.
    + intros v s0. apply Hframe, same_viewer_set_userInput_focused.
    + intros s0. apply Hframe, same_viewer_finally.
    + intros l s0. apply Hframe, same_viewer_set_inflight_generate.
  - destruct (inflight_clear s) as [|n]; [exact H|].
    unfold clearChat_resume. destruct r as [data|message].
    + destruct (jsstring_eqb _ _).
      * eapply Hframe; [apply same_viewer_initializeUI|].
        eapply Hframe; [apply same_viewer_addMessage|].
        eapply Hframe; [apply same_viewer_updateMetrics|].
        eapply Hframe; [apply same_viewer_set_userInput_value|].
        apply Himg.
        eapply Hframe; [apply same_viewer_set_chatMessages|].
        eapply Hframe; [apply same_viewer_set_inflight_clear|exact H].
      * eapply Hframe; [apply same_viewer_set_inflight_clear|exact H].
    + eapply Hframe; [apply same_viewer_set_inflight_clear|exact H].
Qed.

(** X16.  After every sequence of events from page load, image or no
    image, the zoom label reads "N%" for a multiple of ten N between 50
    and 300: the rounding in [updateZoom] hides the binary rounding of
    the repeated additions of 0.1. *)
Theorem zoom_label_is_multiple_of_ten (P : jsstring -> bool) (page : Page)
    (evs : list Event) :
  let s := run_events P evs (DOMContentLoaded page) in
  exists k : Z,
    zoomLevel_textContent s = Z_toString (10 * k) ++ utf16 "%" /\
    (5 <= k <= 30)%Z.
Proof.
  cbv zeta.
  assert (H0 : label_ok (DOMContentLoaded page)).
  { split; [exact one_in_zoom_values|]. exists num_1.
    split; [exact one_in_zoom_values|reflexivity]. }
  destruct (run_events_keeps P label_ok evs _ (label_ok_step P) H0)
    as (_ & z & Hz & Hl).
  destruct (zoom_label_ok_In z Hz) as (Hmod & _).
  pose proof (percent_of_range z Hz) as Hr.
  exists (percent_of z / 10)%Z.
  assert (E : (10 * (percent_of z / 10) = percent_of z)%Z).
  { pose proof (Z.div_mod (percent_of z) 10). lia. }
  rewrite E, Hl. split; [now apply percent_text_of|].
  split.
  - apply Z.div_le_lower_bound; lia.
  - apply Z.div_le_upper_bound; lia.
Qed.

Lemma label_ok_run_events (P : jsstring -> bool) (page : Page)
    (evs : list Event) :
  label_ok (run_events P evs (DOMContentLoaded page)).
Proof.
  apply (run_events_keeps P label_ok evs _ (label_ok_step P)).
  split; [exact one_in_zoom_values|]. exists num_1.
  split; [exact one_in_zoom_values|reflexivity].
Qed.

(** X17.  While the viewer holds an image element, after every sequence
    of events from page load, the image is scaled by [currentZoom] and
    the label reads the rounded percentage of [currentZoom]; the zoom-in
    button is disabled exactly when the label reads "300%", and the
    zoom-out button is disabled only when the label reads "50%". *)
Theorem zoom_widget_shows_zoom (P : jsstring -> bool) (page : Page)
    (evs : list Event) :
  P [] = false ->
  let s := run_events P evs (DOMContentLoaded page) in
  P (graphContent_innerHTML s) = true ->
  image_transform s = Some (currentZoom s) /\
  zoomLevel_textContent s =
    Z_toString (percent_of (currentZoom s)) ++ utf16 "%" /\
  (zoomIn_disabled s = true <-> zoomLevel_textContent s = utf16 "300%") /\
  (zoomOut_disabled s = true -> zoomLevel_textContent s = utf16 "50%").
Proof.
  intros HP s Himg.
  destruct (zoom_inv_run_events P page evs HP) as [Hin Hsync].
  fold s in Hin, Hsync. destruct (Hsync Himg) as (Ht & Hl & Hzi & Hzo).
  destruct (zoom_label_ok_In _ Hin) as (_ & _ & _ & H300 & _).
  rewrite (percent_text_of _ Hin) in Hl.
  repeat apply conj; try assumption.
  - intros Hd. rewrite Hzi in Hd. apply (zoom_value_at_max _ Hin) in Hd.
    rewrite Hl. apply H300 in Hd. now rewrite Hd.
  - intros H. rewrite Hzi. apply (zoom_value_at_max _ Hin). apply H300.
    rewrite Hl in H. change (utf16 "300%") with (Z_toString 300 ++ utf16 "%") in H.
    apply app_inv_tail in H. now apply Z_toString_inj.
  - intros Hd. rewrite Hzo in Hd. apply (zoom_value_at_min _ Hin) in Hd.
    rewrite Hl, Hd. reflexivity.
Qed.

Lemma zoom_widget_shows_zoom_witness :
  let s := run_events sniff_img session_zoomed_in (DOMContentLoaded blank_page) in
  sniff_img [] = false /\
  sniff_img (graphContent_innerHTML s) = true /\
  image_transform s = Some maxZoom /\
  zoomLevel_textContent s = utf16 "300%" /\
  zoomIn_disabled s = true.
Proof.
  cbv zeta. split; [reflexivity|]. split; [vm_compute; reflexivity|].
  pose proof (zoom_widget_shows_zoom sniff_img blank_page session_zoomed_in
                eq_refl) as H.
  cbv zeta in H.
  assert (Himg : sniff_img
                   (graphContent_innerHTML
                      (run_events sniff_img session_zoomed_in
                         (DOMContentLoaded blank_page))) = true)
    by (vm_compute; reflexivity).
  destruct (H Himg) as (H1 & H2 & H3 & _).
  assert (Hl : zoomLevel_textContent
                 (run_events sniff_img session_zoomed_in
                    (DOMContentLoaded blank_page)) = utf16 "300%")
    by (rewrite H2; vm_compute; reflexivity).
  split; [rewrite H1; vm_compute; reflexivity|].
  split; [exact Hl|]. apply H3, Hl.
Defined.

Lemma currentZoom_zoomIn_onclick (P : jsstring -> bool) (s : State) :
  currentZoom (zoomIn_onclick P s) = zoom_in (currentZoom s).
Proof.
  unfold zoomIn_onclick, zoom_in. destruct (num_lt _ _); [|reflexivity].
  now rewrite currentZoom_updateZoom, currentZoom_set_currentZoom.
Qed.

Lemma currentZoom_zoomOut_onclick (P : jsstring -> bool) (s : State) :
  currentZoom (zoomOut_onclick P s) = zoom_out (currentZoom s).
Proof.
  unfold zoomOut_onclick, zoom_out. destruct (num_gt _ _); [|reflexivity].
  now rewrite currentZoom_updateZoom, currentZoom_set_currentZoom.
Qed.

(** X18.  In every state the page can reach, one run of the zoom-in
    listener raises the rounded percentage of [currentZoom] by exactly
    ten, up to 300, and one run of the zoom-out listener lowers it by
    exactly ten, down to 50, although the zoom level itself moves by
    binary64 steps that are not exact tenths; so a step in and a step
    back out below the upper bound restores the percentage. *)
Theorem zoom_step_moves_label_by_ten (P : jsstring -> bool) (page : Page)
    (evs : list Event) :
  let s := run_events P evs (DOMContentLoaded page) in
  let p := percent_of (currentZoom s) in
  percent_of (currentZoom (zoomIn_onclick P s)) = Z.min (p + 10) 300 /\
  percent_of (currentZoom (zoomOut_onclick P s)) = Z.max (p - 10) 50 /\
  (p < 300 ->
   percent_of (currentZoom (zoomOut_onclick P (zoomIn_onclick P s))) = p)%Z.
Proof.
  cbv zeta. destruct (label_ok_run_events P page evs) as [Hin _].
  destruct (zoom_label_ok_In _ Hin) as (Hmod & Hi & Ho & _).
  pose proof (percent_of_range _ Hin) as Hr.
  rewrite !currentZoom_zoomOut_onclick, !currentZoom_zoomIn_onclick.
  repeat apply conj; try assumption.
  intros Hlt.
  destruct (zoom_label_ok_In _ (zoom_in_closed _ Hin)) as (_ & _ & Ho' & _).
  rewrite Ho', Hi.
  pose proof (Z.div_mod (percent_of (currentZoom
                (run_events P evs (DOMContentLoaded page)))) 10) as Hdm.
  rewrite Hmod in Hdm. lia.
Qed.

Lemma zoom_step_moves_label_by_ten_witness :
  let s := run_events sniff_img session_zoomed_in (DOMContentLoaded blank_page) in
  let s5 := iterate 5 (zoomOut_onclick sniff_img) s in
  (percent_of (currentZoom s5) < 300)%Z /\
  percent_of (currentZoom s5) = 250%Z /\
  percent_of
    (currentZoom (zoomOut_onclick sniff_img (zoomIn_onclick sniff_img s5)))
    = 250%Z.
Proof.
  cbv zeta. split; [vm_compute; reflexivity|]. split; [vm_compute; reflexivity|].
  pose proof (zoom_step_moves_label_by_ten sniff_img blank_page
                (session_zoomed_in ++ repeat Click_zoomOut 5)) as H.
  cbv zeta in H. destruct H as (_ & _ & H).
  assert (E : run_events sniff_img (session_zoomed_in ++ repeat Click_zoomOut 5)
                (DOMContentLoaded blank_page) =
              iterate 5 (zoomOut_onclick sniff_img)
                (run_events sniff_img session_zoomed_in
                   (DOMContentLoaded blank_page)))
    by (vm_compute; reflexivity).
  rewrite E in H. rewrite H; [vm_compute; reflexivity|].
  vm_compute. reflexivity.
Defined.

Lemma currentZoom_iterate_in (P : jsstring -> bool) (n : nat) (s : State) :
  currentZoom (iterate n (zoomIn_onclick P) s) = iterate n zoom_in (currentZoom s).
Proof.
  revert s. induction n as [|n IH]; intros s; [reflexivity|].
  cbn. now rewrite IH, currentZoom_zoomIn_onclick.
Qed.

Lemma currentZoom_iterate_out (P : jsstring -> bool) (n : nat) (s : State) :
  currentZoom (iterate n (zoomOut_onclick P) s) =
  iterate n zoom_out (currentZoom s).
Proof.
  revert s. induction n as [|n IH]; intros s; [reflexivity|].
  cbn. now rewrite IH, currentZoom_zoomOut_onclick.
Qed.

(** X19.  From every state the page can reach, 25 runs of the zoom-in
    listener bring [currentZoom] to exactly 3.0 and 25 runs of the
    zoom-out listener to exactly 0.5, the rounding errors of the steps
    notwithstanding; at the bound a further run of the same listener
    changes nothing at all. *)
Theorem zoom_reaches_bounds (P : jsstring -> bool) (page : Page)
    (evs : list Event) :
  let s := run_events P evs (DOMContentLoaded page) in
  let top := iterate 25 (zoomIn_onclick P) s in
  let bottom := iterate 25 (zoomOut_onclick P) s in
  currentZoom top = maxZoom /\
  zoomIn_onclick P top = top /\
  currentZoom bottom = minZoom /\
  zoomOut_onclick P bottom = bottom.
Proof.
  cbv zeta. destruct (label_ok_run_events P page evs) as [Hin _].
  destruct (zoom_label_ok_In _ Hin) as (_ & _ & _ & _ & Htop & Hbot).
  assert (Ht : currentZoom
                 (iterate 25 (zoomIn_onclick P)
                    (run_events P evs (DOMContentLoaded page))) = maxZoom)
    by (now rewrite currentZoom_iterate_in).
  assert (Hb : currentZoom
                 (iterate 25 (zoomOut_onclick P)
                    (run_events P evs (DOMContentLoaded page))) = minZoom)
    by (now rewrite currentZoom_iterate_out).
  repeat apply conj; try assumption.
  - unfold zoomIn_onclick at 1. now rewrite Ht.
  - unfold zoomOut_onclick at 1. now rewrite Hb.
Qed.

(** ** What leaves the zoom widget alone *)

Lemma zoom_widget_same_viewer (s s' : State) :
  same_viewer s s' -> zoom_widget s' = zoom_widget s.
Proof.
  unfold same_viewer, zoom_widget. intros (-> & _ & _ & -> & -> & ->).
  reflexivity.
Qed.

Lemma zoom_widget_clearChat_resume (P : jsstring -> bool)
    (r : Fetched ClearData) (s : State) :
  zoom_widget (clearChat_resume P r s) = zoom_widget s.
Proof.
  unfold clearChat_resume. destruct r as [data|message]; [|reflexivity].
  destruct (jsstring_eqb _ _); [|reflexivity]. now destruct s.
Qed.

Lemma zoom_widget_resume_no_image (P : jsstring -> bool) (input : jsstring)
    (data : GenerateData) (s : State) :
  field_truthy (error data) = true \/ field_truthy (cfg_image data) = false ->
  zoom_widget (generateGraph_resume P input (Resolved data) s) = zoom_widget s.
Proof.
  destruct data as [err h b m]. cbn [error cfg_image]. intros H.
  apply zoom_widget_same_viewer.
  destruct (field_truthy err) eqn:He.
  - destruct err as [[|c e]|]; try discriminate He.
    rewrite generateGraph_resume_error by discriminate.
    eapply same_viewer_trans; [|apply same_viewer_finally].
    apply same_viewer_addMessage.
  - destruct H as [H|H]; [discriminate H|].
    unfold generateGraph_resume, try_catch_finally.
    rewrite (generateGraph_try_ok P input err h b m s He).
    destruct b as [[|c b]|]; try discriminate H;
      (eapply same_viewer_trans;
       [apply (same_viewer_reply input h)|apply same_viewer_epilogue]).
Qed.

(** X20.  The zoom widget (zoom level, label, disabled state of the two
    buttons) changes on nothing but a zoom trigger (a click on a zoom
    button, a key press, a wheel event) or a response to [/generate]
    that carries no error text and a non-empty image.  Typing, the
    repair toggle, submitting, clearing, error responses and failed
    requests all leave it exactly as it was. *)
Theorem zoom_widget_changes_only_on_trigger (P : jsstring -> bool)
    (ev : Event) (s : State) :
  zoom_widget (step P ev s) <> zoom_widget s ->
  zoom_trigger ev = true \/
  exists i data,
    ev = Response_generate i (Resolved data) /\
    field_truthy (error data) = false /\
    field_truthy (cfg_image data) = true.
Proof.
  intros Hne. destruct ev; try (left; reflexivity).
  - exfalso. apply Hne. cbn [step].
    apply zoom_widget_same_viewer, same_viewer_repairBtn_onclick.
  - exfalso. apply Hne. cbn [step].
    destruct (sendBtn_disabled s); [reflexivity|].
    apply zoom_widget_same_viewer, same_viewer_generateGraph.
  - exfalso. apply Hne. cbn [step].
    apply zoom_widget_same_viewer, same_viewer_set_inflight_clear.
  - exfalso. apply Hne. cbn [step].
    apply zoom_widget_same_viewer, same_viewer_set_userInput_value.
  - exfalso. apply Hne. cbn [step].
    apply zoom_widget_same_viewer, same_viewer_set_userInput_focused.
  - destruct r as [data|message].
    + destruct (field_truthy (error data)) eqn:He.
      * exfalso. apply Hne. cbn [step].
        destruct (nth_error _ i); [|reflexivity].
        rewrite zoom_widget_resume_no_image by (now left).
        apply zoom_widget_same_viewer, same_viewer_set_inflight_generate.
      * destruct (field_truthy (cfg_image data)) eqn:Hb.
        -- right. exists i, data. auto.
        -- exfalso. apply Hne. cbn [step].
           destruct (nth_error _ i); [|reflexivity].
           rewrite zoom_widget_resume_no_image by (now right).
           apply zoom_widget_same_viewer, same_viewer_set_inflight_generate.
    + exfalso. apply Hne. cbn [step].
      destruct (nth_error _ i); [|reflexivity].
      rewrite generateGraph_resume_rejected.
      apply zoom_widget_same_viewer.
      eapply same_viewer_trans; [apply same_viewer_set_inflight_generate|].
      eapply same_viewer_trans; [|apply same_viewer_finally].
      apply same_viewer_addMessage.
  - exfalso. apply Hne. cbn [step].
    destruct (inflight_clear s) as [|n]; [reflexivity|].
    rewrite zoom_widget_clearChat_resume.
    apply zoom_widget_same_viewer, same_viewer_set_inflight_clear.
Qed.

Lemma zoom_widget_changes_only_on_trigger_witness :
  let s := DOMContentLoaded blank_page in
  zoom_widget (step sniff_img Click_zoomIn s) <> zoom_widget s /\
  (zoom_trigger Click_zoomIn = true \/
   exists i data,
     Click_zoomIn = Response_generate i (Resolved data) /\
     field_truthy (error data) = false /\
     field_truthy (cfg_image data) = true).
Proof.
  cbv zeta. split; [vm_compute; discriminate|].
  exact (zoom_widget_changes_only_on_trigger sniff_img Click_zoomIn
           (DOMContentLoaded blank_page) ltac:(vm_compute; discriminate)).
Defined.

(** ** Formatting, line by line *)

Lemma split_LF_app (a b : jsstring) :
  split_LF (a ++ LF :: b) = split_LF a ++ split_LF b.
Proof.
  induction a as [|c a IH]; [reflexivity|].
  cbn [app split_LF]. destruct (N.eqb c LF); rewrite IH; [reflexivity|].
  pose proof (split_LF_nonempty a) as Hne.
  destruct (split_LF a) as [|l ls]; [contradiction|reflexivity].
Qed.

Lemma split_LF_one_line (l : jsstring) : ~ In LF l -> split_LF l = [l].
Proof.
  induction l as [|c l IH]; intros H; [reflexivity|].
  cbn. destruct (N.eqb_spec c LF) as [->|Hc].
  - exfalso. apply H. now left.
  - rewrite IH; [reflexivity|]. intros Hin. apply H. now right.
Qed.

(** X21.  Formatting is line by line: the rendering of two texts joined
    by a line break is the rendering of the first followed by the
    rendering of the second, so no line's element depends on the lines
    around it; and a text without line break renders as exactly one
    element, holding the text trimmed. *)
Theorem formatMessage_line_by_line (a b : jsstring) :
  formatMessage (a ++ LF :: b) = formatMessage a ++ formatMessage b /\
  (~ In LF a -> formatMessage a = element (kind_of_line a) (trim a)).
Proof.
  split.
  - unfold formatMessage. now rewrite split_LF_app, map_app, concat_app.
  - intros H. unfold formatMessage. rewrite (split_LF_one_line a H).
    cbn. now rewrite app_nil_r, formatLine_kind.
Qed.

Lemma formatMessage_line_by_line_witness :
  ~ In LF (utf16 "  - b ") /\
  formatMessage (utf16 "  - b ") = div_sub_bullet (utf16 "- b").
Proof.
  assert (H : ~ In LF (utf16 "  - b ")).
  { vm_compute. intros H. repeat (destruct H as [H|H]; [discriminate H|]).
    exact H. }
  split; [exact H|].
  exact (proj2 (formatMessage_line_by_line (utf16 "  - b ") []) H).
Defined.

Lemma trimStart_app_visible (a : jsstring) (c : code_unit) (r : jsstring) :
  is_white_space c = false ->
  trimStart (a ++ c :: r) = trimStart a ++ c :: r.
Proof.
  intros Hc. induction a as [|x a IH]; cbn.
  - now rewrite Hc.
  - destruct (is_white_space x); [exact IH|reflexivity].
Qed.

Lemma trimEnd_app_visible (p : jsstring) (c : code_unit) (q : jsstring) :
  is_white_space c = false ->
  trimEnd (p ++ c :: q) = p ++ c :: trimEnd q.
Proof.
  intros Hc. unfold trimEnd.
  assert (E : rev (p ++ c :: q) = rev q ++ c :: rev p).
  { rewrite rev_app_distr. cbn [rev]. now rewrite <- app_assoc. }
  rewrite E, (trimStart_app_visible _ _ _ Hc).
  rewrite rev_app_distr. cbn [rev]. rewrite rev_involutive.
  now rewrite <- app_assoc.
Qed.

(** X22.  An error text without line break is shown as exactly one
    bullet element: it reads "• Error:" followed by a space and the
    text with its trailing white space dropped, and by nothing at all
    when the text is blank.  The text is copied into the markup as it
    is, with no escaping. *)
Theorem error_message_is_one_bullet (e : jsstring) :
  ~ In LF e ->
  formatMessage (utf16 "• Error: " ++ e) =
  div_bullet (utf16 "• Error:" ++ trimEnd (utf16 " " ++ e)).
Proof.
  intros H.
  assert (Hl : ~ In LF (utf16 "• Error: " ++ e)).
  { intros Hin. apply in_app_or in Hin. destruct Hin as [Hin|Hin]; [|auto].
    vm_compute in Hin. repeat (destruct Hin as [Hin|Hin]; [discriminate Hin|]).
    exact Hin. }
  unfold formatMessage. rewrite (split_LF_one_line _ Hl).
  cbn [map concat]. rewrite app_nil_r. unfold formatLine.
  assert (Ht : trim (utf16 "• Error: " ++ e) =
               utf16 "• Error:" ++ trimEnd (utf16 " " ++ e)).
  { unfold trim.
    change (utf16 "• Error: " ++ e)
      with (8226%N :: (utf16 " Error" ++ 58%N :: (utf16 " " ++ e))).
    cbn [trimStart]. change (is_white_space 8226%N) with false. cbv iota.
    rewrite (trimEnd_cons 8226%N) by reflexivity.
    rewrite (trimEnd_app_visible (utf16 " Error") 58%N) by reflexivity.
    reflexivity. }
  rewrite Ht. reflexivity.
Qed.

Lemma error_message_is_one_bullet_witness :
  ~ In LF (utf16 "bad input  ") /\
  formatMessage (utf16 "• Error: bad input  ") =
  div_bullet (utf16 "• Error: bad input").
Proof.
  assert (H : ~ In LF (utf16 "bad input  ")).
  { vm_compute. intros H. repeat (destruct H as [H|H]; [discriminate H|]).
    exact H. }
  split; [exact H|].
  exact (error_message_is_one_bullet (utf16 "bad input  ") H).
Defined.

(** ** The transcript grows *)

Lemma jsstring_eqb_true (a b : jsstring) : jsstring_eqb a b = true -> a = b.
Proof.
  unfold jsstring_eqb. destruct (list_eq_dec N.eq_dec a b); congruence.
Qed.

(** X23.  The transcript is append-only: every event keeps all nodes of
    the transcript in place and adds at most two at its end, with one
    exception, the response [{status: "success"}] to a pending clear
    request, after which the transcript is the welcome message alone. *)
Theorem transcript_append_only (P : jsstring -> bool) (ev : Event)
    (s : State) :
  (exists l,
     chatMessages (step P ev s) = chatMessages s ++ l /\ length l <= 2) \/
  (ev = Response_clear success /\
   inflight_clear s <> 0 /\
   chatMessages (step P ev s) = [assistant_message WELCOME_MESSAGE]).
Proof.
  assert (Hsame : forall s', chatMessages s' = chatMessages s ->
            exists l, chatMessages s' = chatMessages s ++ l /\ length l <= 2).
  { intros s' E. exists []. rewrite app_nil_r. split; [exact E|cbn; lia]. }
  destruct ev; cbn [step].
  - left. apply Hsame, chat_click_zoomIn.
  - left. apply Hsame, chat_click_zoomOut.
  - left. apply Hsame. now destruct s.
  - left. apply Hsame. destruct (sendBtn_disabled s); [reflexivity|].
    apply chat_generateGraph.
  - left. apply Hsame. now destruct s.
  - left. apply Hsame. rewrite chat_onkeydown.
    destruct in_userInput; [|reflexivity]. unfold userInput_onkeydown.
    destruct (_ && _); [apply chat_generateGraph|reflexivity].
  - left. apply Hsame, chat_onwheel.
  - left. apply Hsame. now destruct s.
  - left. apply Hsame. now destruct s.
  - left. destruct (nth_error _ i) as [formData|];
      [|apply Hsame; reflexivity].
    destruct (generateGraph_resume_chat P (user_input formData) r
                (set_inflight_generate
                   (remove_nth i (inflight_generate s)) s))
      as (l & Hl & Hlen).
    exists l. split; [|lia]. rewrite Hl. now destruct s.
  - destruct (inflight_clear s) as [|n] eqn:En;
      [left; apply Hsame; reflexivity|].
    destruct r as [[st]|message].
    + unfold clearChat_resume. cbn [status].
      destruct (jsstring_eqb st (utf16 "success")) eqn:E.
      * right. apply jsstring_eqb_true in E. subst st.
        repeat apply conj; [reflexivity|discriminate|].
        rewrite chat_initializeUI, chat_addMessage, chat_updateMetrics.
        peel chatMessages. now destruct s.
      * left. apply Hsame. now destruct s.
    + left. apply Hsame. now destruct s.
Qed.

(** ** Modifiers and equivalent triggers *)

(** X24.  The zoom shortcuts need ctrl or cmd.  A key press changes the
    zoom widget only if one of the two is held and the key is "=", "+"
    or "-"; a wheel event changes anything at all only if one of the
    two is held. *)
Theorem zoom_shortcuts_need_modifier (P : jsstring -> bool)
    (in_userInput : bool) (k : KeyboardEvent) (w : WheelEvent) (s : State) :
  (zoom_widget (step P (KeyDown in_userInput k) s) <> zoom_widget s ->
   key_ctrlKey k || key_metaKey k = true /\
   (key k = utf16 "=" \/ key k = utf16 "+" \/ key k = utf16 "-")) /\
  (step P (Wheel_graphImage w) s <> s ->
   wheel_ctrlKey w || wheel_metaKey w = true).
Proof.
  split.
  - intros Hne. cbn [step] in Hne.
    assert (Hpre : zoom_widget (if in_userInput then userInput_onkeydown k s
                                else s) = zoom_widget s).
    { destruct in_userInput; [|reflexivity]. unfold userInput_onkeydown.
      destruct (_ && _); [|reflexivity].
      apply zoom_widget_same_viewer, same_viewer_generateGraph. }
    revert Hne Hpre.
    generalize (if in_userInput then userInput_onkeydown k s else s).
    intros s1 Hne Hpre. unfold document_onkeydown in Hne.
    destruct (key_ctrlKey k || key_metaKey k); [|congruence].
    split; [reflexivity|].
    destruct (jsstring_eqb (key k) (utf16 "=")) eqn:E1;
      [left; now apply jsstring_eqb_true|].
    destruct (jsstring_eqb (key k) (utf16 "+")) eqn:E2;
      [right; left; now apply jsstring_eqb_true|].
    destruct (jsstring_eqb (key k) (utf16 "-")) eqn:E3;
      [right; right; now apply jsstring_eqb_true|].
    cbn [orb] in Hne. congruence.
  - intros Hne. cbn [step] in Hne. unfold graphImage_onwheel in Hne.
    destruct (wheel_ctrlKey w || wheel_metaKey w); [reflexivity|congruence].
Qed.

Lemma zoom_shortcuts_need_modifier_witness :
  let s := DOMContentLoaded blank_page in
  let k := mkKeyboardEvent true false false (utf16 "+") in
  let w := ctrl_wheel num_100 in
  zoom_widget (step sniff_img (KeyDown false k) s) <> zoom_widget s /\
  step sniff_img (Wheel_graphImage w) s <> s /\
  key_ctrlKey k || key_metaKey k = true /\
  wheel_ctrlKey w || wheel_metaKey w = true.
Proof.
  cbv zeta.
  assert (H1 : zoom_widget
                 (step sniff_img
                    (KeyDown false (mkKeyboardEvent true false false (utf16 "+")))
                    (DOMContentLoaded blank_page))
               <> zoom_widget (DOMContentLoaded blank_page))
    by (vm_compute; discriminate).
  assert (H2 : step sniff_img (Wheel_graphImage (ctrl_wheel num_100))
                 (DOMContentLoaded blank_page) <> DOMContentLoaded blank_page)
    by (vm_compute; discriminate).
  split; [exact H1|]. split; [exact H2|].
  destruct (zoom_shortcuts_need_modifier sniff_img false
              (mkKeyboardEvent true false false (utf16 "+"))
              (ctrl_wheel num_100) (DOMContentLoaded blank_page)) as [Hk Hw].
  split; [exact (proj1 (Hk H1))|exact (Hw H2)].
Defined.

Lemma updateZoom_synced (P : jsstring -> bool) (s : State) :
  zoom_inv P s -> updateZoom P s = s.
Proof.
  intros [_ Hsync]. unfold updateZoom.
  destruct (P (graphContent_innerHTML s)) eqn:E; [|reflexivity].
  destruct (Hsync eq_refl) as (Ht & Hl & Hi & Ho).
  unfold percent_text in Hl. destruct s; cbn in *.
  now rewrite <- Ht, <- Hl, <- Hi, <- Ho.
Qed.

(** X25.  In every state the page can reach, a ctrl or cmd wheel-up
    event has exactly the effect of the zoom-in listener, and a
    wheel-down event exactly that of the zoom-out listener: the same
    state results, at the bounds too; a wheel event with [deltaY] zero
    (and no legacy delta) changes nothing. *)
Theorem wheel_equals_zoom_listener (P : jsstring -> bool) (page : Page)
    (evs : list Event) (w : WheelEvent) :
  P [] = false ->
  wheel_ctrlKey w || wheel_metaKey w = true ->
  let s := run_events P evs (DOMContentLoaded page) in
  (wheel_up w = true -> step P (Wheel_graphImage w) s = zoomIn_onclick P s) /\
  (wheel_down w = true -> step P (Wheel_graphImage w) s = zoomOut_onclick P s) /\
  (num_or (num_or (deltaY w) (detail w)) (wheelDelta w) = num_0 ->
   step P (Wheel_graphImage w) s = s).
Proof.
  intros HP Hc s. pose proof (zoom_inv_run_events P page evs HP) as Hinv.
  fold s in Hinv. pose proof (updateZoom_synced P s Hinv) as Hid.
  cbn [step]. unfold graphImage_onwheel. rewrite Hc.
  repeat apply conj.
  - intros Hup. rewrite (wheel_up_delta w Hup).
    unfold wheel_up in Hup. rewrite Hup. cbn [andb]. unfold zoomIn_onclick.
    destruct (num_lt (currentZoom s) maxZoom); [reflexivity|].
    pose proof (wheel_up_not_down w) as Hnd. unfold wheel_up, wheel_down in Hnd.
    rewrite (Hnd Hup). exact Hid.
  - intros Hdown. rewrite (wheel_down_delta w Hdown).
    assert (Hnu : num_lt (deltaY w) num_0 = false).
    { destruct (num_lt (deltaY w) num_0) eqn:E; [|reflexivity].
      pose proof (wheel_up_not_down w E). congruence. }
    unfold wheel_down in Hdown. rewrite Hnu, Hdown. cbn [andb].
    unfold zoomOut_onclick.
    destruct (num_gt (currentZoom s) minZoom); [reflexivity|exact Hid].
  - intros H0. rewrite H0. exact Hid.
Qed.

Lemma wheel_equals_zoom_listener_witness :
  let s := run_events sniff_img session_zoomed_in (DOMContentLoaded blank_page) in
  let w := ctrl_wheel (SFopp num_100) in
  sniff_img [] = false /\
  wheel_ctrlKey w || wheel_metaKey w = true /\
  wheel_up w = true /\
  step sniff_img (Wheel_graphImage w) s = zoomIn_onclick sniff_img s.
Proof.
  cbv zeta. do 3 (split; [reflexivity|]).
  exact (proj1 (wheel_equals_zoom_listener sniff_img blank_page
                  session_zoomed_in (ctrl_wheel (SFopp num_100))
                  eq_refl eq_refl) eq_refl).
Defined.
